(** * Plant scanner and gardening bot: a shallow embedding of [src/app.js]

    The development follows the source file top to bottom:
    - JavaScript values as the program handles them (JSON bodies, property
      reads with and without optional chaining, truthiness, [typeof]);
    - the ambient environment (network, clock jitter, Firestore) as an
      oracle record [Env] and a mutable [World], threaded by a small
      state-and-exception monad [M];
    - [retryWithBackoff], [fileToBase64], [handleScan] of [PlantScanner];
    - the chat subscription, [callGeminiApi] and [handleSend] of
      [GardeningBot];
    - a reference JSON reader used to run the model on concrete texts.

    Numbers are exact rationals: the rounding of IEEE doubles is not
    modelled.  The program only inspects [typeof] of the numbers it
    reads.  The delay [2^i * 1000 + r * 1000] is kept as its exact
    value; a double may round the sum up to [2^i * 1000 + 1000], so the
    bounds stated for delays are never strict, and they bound the double
    as well wherever [2^i * 1000 + 1000] is one, up to [i = 46].
    Strings hold text in UTF-8. *)

From Stdlib Require Import ZArith QArith Qpower Lqa List String Ascii Bool Lia DecimalString.
From stdpp Require Import base gmap strings list sorting.
From Equations Require Import Equations.

Set Warnings "-register-all".

Local Open Scope string_scope.
Local Open Scope Z_scope.

(** ** JavaScript values *)

Inductive JsValue : Type :=
| JsUndefined
| JsNull
| JsBool (b : bool)
| JsNumber (q : Q)
| JsString (s : string)
| JsArray (items : list JsValue)
| JsObject (fields : list (string * JsValue)).

(** Result of [typeof v]. *)
Inductive JsType := TyUndefined | TyObject | TyBoolean | TyNumber | TyString.

Definition typeof (v : JsValue) : JsType :=
  match v with
  | JsUndefined => TyUndefined
  | JsNull => TyObject
  | JsBool _ => TyBoolean
  | JsNumber _ => TyNumber
  | JsString _ => TyString
  | JsArray _ => TyObject
  | JsObject _ => TyObject
  end.

Definition JsType_eqb (a b : JsType) : bool :=
  match a, b with
  | TyUndefined, TyUndefined | TyObject, TyObject | TyBoolean, TyBoolean
  | TyNumber, TyNumber | TyString, TyString => true
  | _, _ => false
  end.

Definition string_is_empty (s : string) : bool :=
  match s with EmptyString => true | String _ _ => false end.

(** ToBoolean: what [if (v)], [!v] and [filter(msg => msg.text)] test. *)
Definition truthy (v : JsValue) : bool :=
  match v with
  | JsUndefined | JsNull => false
  | JsBool b => b
  | JsNumber q => negb (Qnum q =? 0)
  | JsString s => negb (string_is_empty s)
  | JsArray _ | JsObject _ => true
  end.

Definition nullish (v : JsValue) : bool :=
  match v with JsUndefined | JsNull => true | _ => false end.

(** Property keys as the source writes them: [.name] or [[0]]. *)
Inductive PropKey := Named (name : string) | Index (n : nat).

(** Decimal spelling of an array index, the key under which an object
    stores it. *)
Definition index_name (n : nat) : string :=
  NilZero.string_of_uint (Nat.to_uint n).

Definition key_name (k : PropKey) : string :=
  match k with Named s => s | Index n => index_name n end.

(** Own property of an object literal: a later binding of a key overrides
    an earlier one. *)
Fixpoint own_property (name : string) (fields : list (string * JsValue)) : option JsValue :=
  match fields with
  | [] => None
  | (k, v) :: rest =>
      match own_property name rest with
      | Some v' => Some v'
      | None => if String.eqb k name then Some v else None
      end
  end.

Definition string_at (s : string) (n : nat) : JsValue :=
  match String.get n s with
  | Some c => JsString (String c EmptyString)
  | None => JsUndefined
  end.

(** [v[k]] for a value that is neither [null] nor [undefined].  The keys
    read by the program are identifiers found on no built-in prototype
    and the index [0], so only own properties, elements and [length]
    matter. *)
Definition get_property (v : JsValue) (k : PropKey) : JsValue :=
  match v, k with
  | JsObject fields, _ => default JsUndefined (own_property (key_name k) fields)
  | JsArray items, Index n => nth n items JsUndefined
  | JsArray items, Named name =>
      if String.eqb name "length" then JsNumber (inject_Z (Z.of_nat (List.length items)))
      else JsUndefined
  | JsString s, Index n => string_at s n
  | JsString s, Named name =>
      if String.eqb name "length" then JsNumber (inject_Z (Z.of_nat (String.length s)))
      else JsUndefined
  | _, _ => JsUndefined
  end.

(** Optional chaining [v?.k]. *)
Definition opt_get (v : JsValue) (k : PropKey) : JsValue :=
  if nullish v then JsUndefined else get_property v k.

(** ** Exceptions and completions *)

(** The values the program throws or sees rejected.  The program raises
    plain [Error] objects; the constructors record which one. *)
Inductive JsError : Type :=
| Error (message : string)          (* new Error(message) *)
| ApiStatusError (status : Z)       (* new Error(`API call failed with status: ${status}`) *)
| TypeErrorReading (property : string) (* property read on null or undefined *)
| SyntaxError                       (* JSON.parse or response.json() on a text that is not JSON *)
| FetchFailed                       (* fetch() rejected: no response *)
| FileReaderError                   (* the event passed to reader.onerror *)
| FirestoreError.                   (* addDoc() rejected *)

Inductive Completion (A : Type) : Type :=
| Normal (a : A)
| Throw (e : JsError).
Arguments Normal {A} a.
Arguments Throw {A} e.

(** Plain member access [v.name]: throws on [null] and [undefined]. *)
Definition get_member (v : JsValue) (name : string) : Completion JsValue :=
  if nullish v then Throw (TypeErrorReading name) else Normal (get_property v (Named name)).

(** ** The environment *)

(** A document of the chat collection, as [addDoc] writes it:
    [{ role, text, timestamp: serverTimestamp() }] under a store-assigned
    id. *)
Record Doc := mkDoc {
  doc_id : string;
  doc_role : string;
  doc_text : JsValue;
  doc_timestamp : Z
}.

(** What [fetch(apiUrl, { method: 'POST', headers, body })] sends.  The
    body is kept as the payload value handed to [JSON.stringify]. *)
Record Request := mkRequest {
  req_url : string;
  req_payload : JsValue
}.

(** What [fetch] comes back with: a rejection, or a response with its
    status and its body read by [response.json()] ([None] when the body
    is not JSON, in which case [response.json()] rejects). *)
Inductive FetchReply :=
| NoResponse
| HttpResponse (status : Z) (body : option JsValue).

(** The behaviour of everything outside the program, fixed in advance:
    the reply to the k-th request, the k-th value of [Math.random()],
    whether the store acknowledges the k-th write and the id and server
    timestamp it gives it. *)
Record Env := mkEnv {
  appId : string;
  network : nat -> Request -> FetchReply;
  Math_random : nat -> Q;
  store_accepts : nat -> bool;
  new_doc_id : nat -> string;
  server_time : nat -> Z
}.

(** The state the program changes: Firestore collections by path, the
    requests issued so far, the number of store writes and random draws
    made, and the delays slept through [setTimeout] (oldest first). *)
Record World := mkWorld {
  firestore : gmap string (list Doc);
  requests : list Request;
  store_writes : nat;
  random_draws : nat;
  timeouts : list Q
}.

Definition with_firestore (fs : gmap string (list Doc)) (w : World) : World :=
  mkWorld fs (requests w) (store_writes w) (random_draws w) (timeouts w).
Definition with_requests (rs : list Request) (w : World) : World :=
  mkWorld (firestore w) rs (store_writes w) (random_draws w) (timeouts w).
Definition with_store_writes (n : nat) (w : World) : World :=
  mkWorld (firestore w) (requests w) n (random_draws w) (timeouts w).
Definition with_random_draws (n : nat) (w : World) : World :=
  mkWorld (firestore w) (requests w) (store_writes w) n (timeouts w).
Definition with_timeouts (ts : list Q) (w : World) : World :=
  mkWorld (firestore w) (requests w) (store_writes w) (random_draws w) ts.

(** ** Asynchronous code as a state-and-exception monad

    [await] is sequencing: the program is single-threaded and every
    function below awaits each promise it creates. *)

Definition M (A : Type) : Type := World -> Completion A * World.

#[global] Instance M_ret : MRet M := fun A a w => (Normal a, w).
#[global] Instance M_bind : MBind M := fun A B k c w =>
  match c w with
  | (Normal a, w') => k a w'
  | (Throw e, w') => (Throw e, w')
  end.

Definition throw {A} (e : JsError) : M A := fun w => (Throw e, w).

(** [try { body } catch (e) { handler(e) }] *)
Definition try_catch {A} (body : M A) (handler : JsError -> M A) : M A := fun w =>
  match body w with
  | (Normal a, w') => (Normal a, w')
  | (Throw e, w') => handler e w'
  end.

(** Lifting a pure completion. *)
Definition lift {A} (c : Completion A) : M A := fun w => (c, w).

Section Retry.

Variable env : Env.

(** [Math.random()] *)
Definition random : M Q := fun w =>
  (Normal (Math_random env (random_draws w)), with_random_draws (S (random_draws w)) w).

(** [await new Promise(resolve => setTimeout(resolve, delay))] *)
Definition sleep (delay : Q) : M () := fun w =>
  (Normal (), with_timeouts (timeouts w ++ [delay])%list w).

(** ** [retryWithBackoff] (lines 39-49) *)

(** [Math.pow(2, i) * 1000 + Math.random() * 1000], with [r] the value
    of [Math.random()]: the exact value of the expression, of which the
    program passes the nearest double to [setTimeout]. *)
Definition backoff_delay (i : Z) (r : Q) : Q :=
  (Qpower 2 i * 1000 + r * 1000)%Q.

(** The part of the delay that does not depend on the random draw. *)
Definition backoff_floor (i : Z) : Q := (Qpower 2 i * 1000)%Q.

(** The catch block when the failed attempt was not the last one. *)
Definition backoff_sleep (i : Z) : M () :=
  r ← random; sleep (backoff_delay i r).

(** World after the pause that follows a failed attempt [i]. *)
Definition after_backoff (i : Z) (w : World) : World := snd (backoff_sleep i w).

(** The [for] loop from index [i] on, for an integer [maxRetries].
    Beside the completion and the world, the loop reports how many times
    it has invoked [fn] ([attempts] counts the invocations made before
    index [i]); [Normal None] is the [undefined] of falling off the end
    of the function. *)
Equations retry_loop {A : Type} (fn : M A) (maxRetries i : Z) (w : World) (attempts : nat)
  : Completion (option A) * World * nat by wf (Z.to_nat (maxRetries - i)) lt :=
retry_loop fn maxRetries i w attempts with Z_lt_dec i maxRetries := {
  | right _ => (Normal None, w, attempts)
  | left _ with fn w := {
    | (Normal v, w1) => (Normal (Some v), w1, S attempts)
    | (Throw error, w1) with Z.eq_dec i (maxRetries - 1) := {
      | left _ => (Throw error, w1, S attempts)
      | right _ => retry_loop fn maxRetries (i + 1) (after_backoff i w1) (S attempts) } } }.
Next Obligation. lia. Qed.

Definition retryWithBackoff {A : Type} (fn : M A) (maxRetries : Z) : M (option A) := fun w =>
  let '(c, w', _) := retry_loop fn maxRetries 0 w 0 in (c, w').

(** Number of invocations of [fn] made by [retryWithBackoff fn maxRetries]
    started in world [w]. *)
Definition invocations {A : Type} (fn : M A) (maxRetries : Z) (w : World) : nat :=
  snd (retry_loop fn maxRetries 0 w 0).

(** [maxRetries = 5], the default parameter value. *)
Definition default_maxRetries : Z := 5.

End Retry.

(** ** Requests to the inference endpoint *)

Definition GEMINI_MODEL : string := "gemini-2.5-flash-preview-05-20".
Definition API_URL_BASE : string :=
  "https://generativelanguage.googleapis.com/v1beta/models/" ++ GEMINI_MODEL ++ ":generateContent".

(** [const apiKey = ...; const apiUrl = `${API_URL_BASE}?key=${apiKey}`] *)
Definition apiKey : string := EmptyString.
Definition apiUrl : string := API_URL_BASE ++ "?key=" ++ apiKey.

Definition ANALYSIS_RESPONSE_SCHEMA : JsValue :=
  JsObject [
    ("type", JsString "OBJECT");
    ("properties", JsObject [
      ("health_percentage", JsObject [
        ("type", JsString "NUMBER");
        ("description", JsString "The estimated health of the plant as a percentage (0 to 100). Must be an integer.")]);
      ("predicted_disease", JsObject [
        ("type", JsString "STRING");
        ("description", JsString "The predicted disease or 'Healthy' if no disease is found. Must be concise.")]);
      ("home_remedies", JsObject [
        ("type", JsString "ARRAY");
        ("description", JsString "A list of 3-5 actionable, home-based remedies using common household items like soap, baking soda, etc. The first item should always be a summary of the status.");
        ("items", JsObject [("type", JsString "STRING")])])]);
    ("required", JsArray [JsString "health_percentage"; JsString "predicted_disease"; JsString "home_remedies"])].

(** [response.ok]: the status is in the range 200-299. *)
Definition response_ok (status : Z) : bool := (200 <=? status) && (status <=? 299).

Section Network.

Variable env : Env.

(** [await fetch(apiUrl, { method: 'POST', headers, body: JSON.stringify(payload) })] *)
Definition fetch (url : string) (payload : JsValue) : M (Z * option JsValue) := fun w =>
  let req := mkRequest url payload in
  let w' := with_requests (requests w ++ [req])%list w in
  match network env (List.length (requests w)) req with
  | NoResponse => (Throw FetchFailed, w')
  | HttpResponse status body => (Normal (status, body), w')
  end.

(** The closure [apiCall] of both components (lines 124-134 and 312-322). *)
Definition apiCall (payload : JsValue) : M JsValue :=
  response ← fetch apiUrl payload;
  if negb (response_ok (fst response)) then throw (ApiStatusError (fst response))
  else match snd response with
       | Some body => mret body
       | None => throw SyntaxError
       end.

End Network.

(** [undefined] when a function returned nothing. *)
Definition value_or_undefined (r : option JsValue) : JsValue := default JsUndefined r.

(** [result.candidates?.[0]?.content?.parts?.[0]?.text] (lines 138 and 326) *)
Definition first_candidate_text (result : JsValue) : Completion JsValue :=
  match get_member result "candidates" with
  | Throw e => Throw e
  | Normal candidates =>
      Normal (opt_get (opt_get (opt_get (opt_get (opt_get candidates (Index 0))
                (Named "content")) (Named "parts")) (Index 0)) (Named "text"))
  end.

(** ** [fileToBase64] (lines 56-63) *)

(** A [File]: its [type] and what [FileReader.readAsDataURL] produces for
    it, [None] when the read fails and [onerror] fires. *)
Record File := mkFile {
  file_type : string;
  file_dataURL : option string
}.

(** [s.split(',')] *)
Fixpoint split_comma (s : string) : list string :=
  match s with
  | EmptyString => [EmptyString]
  | String c rest =>
      let parts := split_comma rest in
      if Ascii.eqb c "," then EmptyString :: parts
      else match parts with
           | p :: ps => String c p :: ps
           | [] => [String c EmptyString]
           end
  end.

Definition fileToBase64 (file : File) : M JsValue :=
  match file_dataURL file with
  | Some result =>
      mret (match nth_error (split_comma result) 1 with
            | Some data => JsString data
            | None => JsUndefined
            end)
  | None => throw FileReaderError
  end.

(** [s.toLowerCase()], on 7-bit text: the letters A to Z become a to z. *)
Definition lower_ascii (c : ascii) : ascii :=
  let n := nat_of_ascii c in
  if (65 <=? n)%nat && (n <=? 90)%nat then ascii_of_nat (n + 32) else c.

Fixpoint toLowerCase (s : string) : string :=
  match s with
  | EmptyString => EmptyString
  | String c rest => String (lower_ascii c) (toLowerCase rest)
  end.

(** What evaluating an expression of the render gives: a value, or the
    [TypeError] of reading a property of [null] or [undefined], or of
    calling something that is not a function. *)
Inductive TypeError :=
| ReadingOfNullish (property : string)
| NotAFunction (callee : string).

Inductive Evaluated (A : Type) : Type :=
| Value (a : A)
| Raised (e : TypeError).
Arguments Value {A} a.
Arguments Raised {A} e.

(** ** The [PlantScanner] component (lines 67-255) *)

Module PlantScanner.

(** The component state: [file], [scanResult], [loading], [error]. *)
Record State := mkState {
  file : option File;
  scanResult : option JsValue;
  loading : bool;
  error : option string
}.

Definition setScanResult (r : option JsValue) (st : State) : State :=
  mkState (file st) r (loading st) (error st).
Definition setLoading (b : bool) (st : State) : State :=
  mkState (file st) (scanResult st) b (error st).
Definition setError (e : option string) (st : State) : State :=
  mkState (file st) (scanResult st) (loading st) e.

Definition userPrompt : string :=
  "Analyze this image of a plant. Determine its health percentage (0-100), predict the specific disease, or state 'Healthy'. Provide 3 to 5 actionable home remedies using common household products like soap, vinegar, or baking soda. If the plant is healthy, provide general care tips instead of remedies. Respond ONLY in the requested JSON format.".

Definition analysis_failed_message : string :=
  "Analysis failed. Please try a clearer picture or ask the bot for help.".

(** Step 3, the API payload. *)
Definition scan_payload (mimeType : string) (base64ImageData : JsValue) : JsValue :=
  JsObject [
    ("contents", JsArray [
      JsObject [
        ("role", JsString "user");
        ("parts", JsArray [
          JsObject [("text", JsString userPrompt)];
          JsObject [("inlineData", JsObject [
            ("mimeType", JsString mimeType);
            ("data", base64ImageData)])]])]]);
    ("generationConfig", JsObject [
      ("responseMimeType", JsString "application/json");
      ("responseSchema", ANALYSIS_RESPONSE_SCHEMA)])].

Section Scan.

Variable env : Env.

(** [JSON.parse], with [None] for the [SyntaxError] it throws.  It is a
    built-in: the program is verified for whatever it computes. *)
Variable JSON_parse : JsValue -> option JsValue.

(** Lines 138-145: from the response to the validated result. *)
Definition decode (result : JsValue) : Completion JsValue :=
  match first_candidate_text result with
  | Throw e => Throw e
  | Normal jsonText =>
      if negb (truthy jsonText) then Throw (Error "API response was empty or malformed.")
      else match JSON_parse jsonText with
           | None => Throw SyntaxError
           | Some parsedResult =>
               match get_member parsedResult "health_percentage" with
               | Throw e => Throw e
               | Normal health_percentage =>
                   if negb (JsType_eqb (typeof health_percentage) TyNumber)
                   then Throw (Error "Invalid health percentage received.")
                   else Normal parsedResult
               end
           end
  end.

(** The [try] block of [handleScan] (lines 91-147), up to the value
    handed to [setScanResult]. *)
Definition scan (f : File) : M JsValue :=
  base64ImageData ← fileToBase64 f;
  let mimeType := if string_is_empty (file_type f) then "image/png" else file_type f in
  let payload := scan_payload mimeType base64ImageData in
  result ← retryWithBackoff env (apiCall env payload) default_maxRetries;
  lift (decode (value_or_undefined result)).

(** [handleScan] (lines 83-155): the state the component ends in. *)
Definition handleScan (st : State) : M State :=
  match file st with
  | None => mret st
  | Some f =>
      let st := setError None (setScanResult None (setLoading true st)) in
      st ← try_catch
             (parsedResult ← scan f; mret (setScanResult (Some parsedResult) st))
             (fun err => mret (setError (Some analysis_failed_message) st));
      mret (setLoading false st)
  end.

End Scan.

Definition setFile (f : option File) (st : State) : State :=
  mkState f (scanResult st) (loading st) (error st).

(** [handleFileChange] (lines 74-81), with [selectedFile] the value of
    [e.target.files[0]]: [None] when the picker was dismissed. *)
Definition handleFileChange (selectedFile : option File) (st : State) : State :=
  match selectedFile with
  | Some f => setError None (setScanResult None (setFile (Some f) st))
  | None => st
  end.

(** [getHealthColor] (lines 157-161), on a number. *)
Definition getHealthColor (health : Q) : string :=
  if Qle_bool 80 health then "text-green-600 bg-green-100 border-green-300"
  else if Qle_bool 60 health then "text-yellow-600 bg-yellow-100 border-yellow-300"
  else "text-red-600 bg-red-100 border-red-300".

(** Line 163, evaluated at every render:
    [scanResult && scanResult.predicted_disease.toLowerCase() !== "healthy"].
    Without a result the conjunction stops at its first operand, which
    the render only uses as a condition. *)
Definition isDiseased (result : option JsValue) : Evaluated bool :=
  match result with
  | None => Value false
  | Some r =>
      if negb (truthy r) then Value false
      else match get_property r (Named "predicted_disease") with
           | JsUndefined | JsNull => Raised (ReadingOfNullish "toLowerCase")
           | JsString s => Value (negb (String.eqb (toLowerCase s) "healthy"))
           | _ => Raised (NotAFunction "toLowerCase")
           end
  end.

(** Line 241: the heading above the list. *)
Definition remedies_heading (diseased : bool) : string :=
  if diseased then "DIY Home Remedies" else "General Care Tips".

(** Lines 244-248: [scanResult.home_remedies.map((remedy, index) => ...)],
    the list items with their keys. *)
Definition remedy_items (r : JsValue) : Evaluated (list (nat * JsValue)) :=
  match get_property r (Named "home_remedies") with
  | JsUndefined | JsNull => Raised (ReadingOfNullish "map")
  | JsArray items => Value (combine (seq 0 (List.length items)) items)
  | _ => Raised (NotAFunction "map")
  end.

End PlantScanner.

(** ** Firestore, as the chat uses it *)

(** [orderBy('timestamp', 'asc')]: ascending timestamps, documents with
    equal timestamps in the order of their ids. *)
Definition doc_leb (a b : Doc) : bool :=
  (doc_timestamp a <? doc_timestamp b)
  || ((doc_timestamp a =? doc_timestamp b) && String.leb (doc_id a) (doc_id b)).

Fixpoint insert_doc (d : Doc) (sorted : list Doc) : list Doc :=
  match sorted with
  | [] => [d]
  | x :: rest => if doc_leb d x then d :: x :: rest else x :: insert_doc d rest
  end.

Definition orderBy_timestamp_asc (docs : list Doc) : list Doc :=
  fold_right insert_doc [] docs.

(** [limit(n)]: the first [n] documents of the ordered result. *)
Definition limit (n : nat) (docs : list Doc) : list Doc := firstn n docs.

(** [query(collection(db, path), orderBy('timestamp', 'asc'), limit(50))]
    evaluated on the current contents of the collection. *)
Definition chat_query (collection : list Doc) : list Doc :=
  limit 50 (orderBy_timestamp_asc collection).

(** ** Text

    Strings hold text in UTF-8.  [chars] cuts a string into its
    characters: a lead byte with the continuation bytes it announces; a
    byte that begins no such sequence stands alone, and is read as the
    Latin-1 character of that value. *)

Definition byte_in (lo hi : nat) (c : ascii) : bool :=
  let n := nat_of_ascii c in (lo <=? n)%nat && (n <=? hi)%nat.

Definition continuation (c : ascii) : bool := byte_in 128 191 c.

Fixpoint chars (s : string) : list string :=
  match s with
  | EmptyString => []
  | String c1 rest1 =>
      let alone := String c1 EmptyString :: chars rest1 in
      match rest1 with
      | EmptyString => alone
      | String c2 rest2 =>
          if byte_in 194 223 c1 && continuation c2
          then String c1 (String c2 EmptyString) :: chars rest2
          else
            match rest2 with
            | EmptyString => alone
            | String c3 rest3 =>
                if byte_in 224 239 c1 && continuation c2 && continuation c3
                then String c1 (String c2 (String c3 EmptyString)) :: chars rest3
                else
                  match rest3 with
                  | EmptyString => alone
                  | String c4 rest4 =>
                      if byte_in 240 244 c1 && continuation c2 && continuation c3 && continuation c4
                      then String c1 (String c2 (String c3 (String c4 EmptyString))) :: chars rest4
                      else alone
                  end
            end
      end
  end.

(** The character with the given UTF-8 bytes. *)
Definition utf8 (bytes : list nat) : string :=
  string_of_list_ascii (map ascii_of_nat bytes).

(** The characters [String.prototype.trim] removes, WhiteSpace and
    LineTerminator of the language: U+0009 to U+000D, U+0020, U+00A0,
    U+1680, U+2000 to U+200A, U+2028, U+2029, U+202F, U+205F, U+3000 and
    U+FEFF; last, U+00A0 as a lone Latin-1 byte. *)
Definition white_space_characters : list string :=
  ([ utf8 [9]; utf8 [10]; utf8 [11]; utf8 [12]; utf8 [13]; utf8 [32];
    utf8 [194; 160];
    utf8 [225; 154; 128];
    utf8 [226; 128; 128]; utf8 [226; 128; 129]; utf8 [226; 128; 130]; utf8 [226; 128; 131];
    utf8 [226; 128; 132]; utf8 [226; 128; 133]; utf8 [226; 128; 134]; utf8 [226; 128; 135];
    utf8 [226; 128; 136]; utf8 [226; 128; 137]; utf8 [226; 128; 138];
    utf8 [226; 128; 168]; utf8 [226; 128; 169]; utf8 [226; 128; 175];
    utf8 [226; 129; 159];
    utf8 [227; 128; 128];
    utf8 [239; 187; 191];
    utf8 [160] ])%nat.

Definition is_whitespace (ch : string) : bool :=
  existsb (String.eqb ch) white_space_characters.

(** White space removed at the start, and at the end, of a list of
    characters. *)
Fixpoint drop_leading_space (l : list string) : list string :=
  match l with
  | [] => []
  | ch :: rest => if is_whitespace ch then drop_leading_space rest else l
  end.

Fixpoint drop_trailing_space (l : list string) : list string :=
  match l with
  | [] => []
  | ch :: rest =>
      match drop_trailing_space rest with
      | [] => if is_whitespace ch then [] else [ch]
      | rest' => ch :: rest'
      end
  end.

(** [s.trim()] *)
Definition trim (s : string) : string :=
  String.concat EmptyString (drop_trailing_space (drop_leading_space (chars s))).

(** ** The [GardeningBot] component (lines 257-425) *)

Module GardeningBot.

(** Props [{ db, userId }]: whether a Firestore handle was passed, and
    the user id ([None] for [null]). *)
Record Props := mkProps {
  db : bool;
  userId : option string
}.

(** The component state: [messages], [input], [loading]. *)
Record State := mkState {
  messages : list Doc;
  input : string;
  loading : bool
}.

(** [!userId] *)
Definition no_userId (p : Props) : bool :=
  match userId p with
  | None => true
  | Some u => string_is_empty u
  end.

Definition systemPrompt : string :=
  "You are a friendly, knowledgeable, and practical home gardening expert and plant doctor. Your responses should be concise, encouraging, and focused on home remedies and simple, actionable care tips. Use common language and acknowledge the user's plant. When giving vacation tips, always prioritize simple, proven methods like wicking or bottle watering. Do not use external tools or markdown headers. Your only goal is to provide helpful, actionable advice.".

Definition apology : string :=
  "Oops! I ran into a technical issue. The gardening bot is on a coffee break. Please try your question again.".

(** [messages.filter(msg => msg.text)] *)
Definition with_text (msgs : list Doc) : list Doc :=
  filter (fun msg => truthy (doc_text msg) = true) msgs.

Definition history_entry (msg : Doc) : JsValue :=
  JsObject [
    ("role", JsString (if String.eqb (doc_role msg) "user" then "user" else "model"));
    ("parts", JsArray [JsObject [("text", doc_text msg)]])].

Definition chat_payload (msgs : list Doc) (userMessage : string) : JsValue :=
  let validMessages := with_text msgs in
  let chatHistoryForAPI := map history_entry validMessages in
  JsObject [
    ("contents", JsArray (chatHistoryForAPI ++
        [JsObject [("role", JsString "user");
                   ("parts", JsArray [JsObject [("text", JsString userMessage)]])]])%list);
    ("systemInstruction", JsObject [("parts", JsArray [JsObject [("text", JsString systemPrompt)]])])].

Section Chat.

Variable env : Env.
Variable props : Props.

(** [`artifacts/${appId}/users/${userId}/plant_bot_chats`] *)
Definition CHAT_COLLECTION : string :=
  "artifacts/" ++ appId env ++ "/users/" ++ default "null" (userId props) ++ "/plant_bot_chats".

(** The documents of the chat collection, in the order they were added. *)
Definition chat_log (w : World) : list Doc := firestore w !!! CHAT_COLLECTION.

(** [await addDoc(collection(db, CHAT_COLLECTION), { role, text,
    timestamp: serverTimestamp() })]: resolves with the new id, or
    rejects and leaves the collection as it was. *)
Definition addDoc (role : string) (text : JsValue) : M string := fun w =>
  let k := store_writes w in
  let w' := with_store_writes (S k) w in
  if store_accepts env k then
    let d := mkDoc (new_doc_id env k) role text (server_time env k) in
    (Normal (doc_id d), with_firestore (<[CHAT_COLLECTION := (chat_log w ++ [d])%list]> (firestore w)) w')
  else (Throw FirestoreError, w').

(** The snapshot listener of the subscription effect (lines 277-283):
    the value it passes to [setMessages] for the current contents of the
    collection.  [snapshot.docs.map(doc => ({ id: doc.id, ...doc.data() }))]
    is the identity on [Doc], which carries the id with the data. *)
Definition snapshot_messages (w : World) : list Doc :=
  with_text (chat_query (chat_log w)).

(** The subscription effect (lines 271-289): no listener without [db] or
    [userId]; otherwise the listener is called with the current result
    of the query, and again whenever the collection changes. *)
Definition subscribe (w : World) : option (list Doc) :=
  if negb (db props) || no_userId props then None
  else Some (snapshot_messages w).

(** [callGeminiApi] (lines 291-345), called with the [messages] of the
    render that created the closure. *)
Definition callGeminiApi (msgs : list Doc) (userMessage : string) : M () :=
  let payload := chat_payload msgs userMessage in
  try_catch
    (result ← retryWithBackoff env (apiCall env payload) default_maxRetries;
     botResponse ← lift (first_candidate_text (value_or_undefined result));
     if truthy botResponse then
       _ ← addDoc "model" botResponse; mret ()
     else mret ())
    (fun error => _ ← addDoc "model" (JsString apology); mret ()).

(** [handleSend] (lines 347-366): the state the component ends in. *)
Definition handleSend (st : State) : M State :=
  if string_is_empty (trim (input st)) || loading st || negb (db props) || no_userId props
  then mret st
  else
    let userMessage := trim (input st) in
    let st := mkState (messages st) EmptyString true in
    _ ← addDoc "user" (JsString userMessage);
    _ ← callGeminiApi (messages st) userMessage;
    mret (mkState (messages st) (input st) false).

End Chat.

End GardeningBot.

(** ** The [App] component (lines 429-540) *)

Module App.

(** The sign-in calls of Firebase authentication. *)
Inductive SignIn :=
| signInWithCustomToken (token : string)
| signInAnonymously.

(** The identity provider: the error with which it rejects the k-th
    sign-in call, [None] when the call resolves. *)
Record AuthEnv := mkAuthEnv {
  sign_in_error : nat -> SignIn -> option JsError
}.

(** The sign-in calls made so far, oldest first, and the call that
    signed the current user in, if any. *)
Record AuthWorld := mkAuthWorld {
  sign_ins : list SignIn;
  signed_in_by : option SignIn
}.

Definition Auth (A : Type) : Type := AuthWorld -> Completion A * AuthWorld.

(** [await signInWithCustomToken(authInstance, token)] and
    [await signInAnonymously(authInstance)]. *)
Definition sign_in (aenv : AuthEnv) (call : SignIn) : Auth () := fun aw =>
  match sign_in_error aenv (List.length (sign_ins aw)) call with
  | None => (Normal (), mkAuthWorld (sign_ins aw ++ [call])%list (Some call))
  | Some e => (Throw e, mkAuthWorld (sign_ins aw ++ [call])%list (signed_in_by aw))
  end.

(** [authenticate] (lines 447-463), with [initialAuthToken] the global
    of line 10 ([None] for [null]). *)
Definition authenticate (aenv : AuthEnv) (initialAuthToken : option string) : Auth () := fun aw =>
  let first :=
    match initialAuthToken with
    | Some token => if string_is_empty token then signInAnonymously else signInWithCustomToken token
    | None => signInAnonymously
    end in
  match sign_in aenv first aw with
  | (Normal done, aw1) => (Normal done, aw1)
  | (Throw error, aw1) =>
      match sign_in aenv signInAnonymously aw1 with
      | (Normal done, aw2) => (Normal done, aw2)
      | (Throw e, aw2) => (Normal (), aw2)
      end
  end.

(** The component state: [db] (whether a Firestore handle is set),
    [userId], [isAuthReady], [view]. *)
Record State := mkState {
  db : bool;
  userId : option string;
  isAuthReady : bool;
  view : string
}.

(** [useState] initial values. *)
Definition initial : State := mkState false None false "scanner".

(** The body of the effect up to the listener (lines 438-444): with a
    Firebase configuration, [setDb(firestore)]. *)
Definition mount (firebaseConfig : bool) (st : State) : State :=
  if firebaseConfig then mkState true (userId st) (isAuthReady st) (view st) else st.

(** The listener given to [onAuthStateChanged] (lines 468-476): [user]
    is the uid of the signed-in user, [None] for [null]; [randomUUID] is
    what [crypto.randomUUID()] returns. *)
Definition authStateChanged (user : option string) (randomUUID : string) (st : State) : State :=
  let st := match user with
            | Some uid => mkState (db st) (Some uid) (isAuthReady st) (view st)
            | None => mkState (db st) (Some randomUUID) (isAuthReady st) (view st)
            end in
  mkState (db st) (userId st) true (view st).

(** [setView] of the two buttons. *)
Definition setView (v : string) (st : State) : State :=
  mkState (db st) (userId st) (isAuthReady st) v.

(** What the component returns: the loading card (lines 482-494), or
    the layout around [renderContent()] (lines 496-501). *)
Inductive Screen :=
| LoadingScreen
| ScannerScreen
| BotScreen (props : GardeningBot.Props).

Definition renderContent (st : State) : Screen :=
  if String.eqb (view st) "scanner" then ScannerScreen
  else BotScreen (GardeningBot.mkProps (db st) (userId st)).

Definition render (st : State) : Screen :=
  if negb (isAuthReady st) then LoadingScreen else renderContent st.

End App.

(** ** A reference reader for JSON texts

    [JSON.parse] is a parameter of the program above.  To run the program
    on concrete texts, this module reads the JSON grammar (objects,
    arrays, strings with their escapes, numbers with fraction and
    exponent, [true], [false], [null], insignificant white space) on
    7-bit texts. *)

Module JSON.

Definition dquote : ascii := "034"%char.
Definition backslash : ascii := "092"%char.

(** White space of the JSON grammar: space, tab, line feed, carriage
    return. *)
Definition is_ws (c : ascii) : bool :=
  let n := nat_of_ascii c in
  (n =? 32)%nat || (n =? 9)%nat || (n =? 10)%nat || (n =? 13)%nat.

Fixpoint skip_ws (s : string) : string :=
  match s with
  | String c rest => if is_ws c then skip_ws rest else s
  | EmptyString => EmptyString
  end.

Fixpoint strip_prefix (p s : string) : option string :=
  match p, s with
  | EmptyString, _ => Some s
  | String a p', String b s' => if Ascii.eqb a b then strip_prefix p' s' else None
  | String _ _, EmptyString => None
  end.

Definition digit_of (c : ascii) : option Z :=
  let n := nat_of_ascii c in
  if (48 <=? n)%nat && (n <=? 57)%nat then Some (Z.of_nat (n - 48)) else None.

Definition hex_digit_of (c : ascii) : option nat :=
  let n := nat_of_ascii c in
  if (48 <=? n)%nat && (n <=? 57)%nat then Some (n - 48)%nat
  else if (65 <=? n)%nat && (n <=? 70)%nat then Some (n - 55)%nat
  else if (97 <=? n)%nat && (n <=? 102)%nat then Some (n - 87)%nat
  else None.

(** Reads a possibly empty run of digits: the number they spell after
    [acc], how many there were, and the rest of the text. *)
Fixpoint read_digits (s : string) (acc : Z) (count : nat) : Z * nat * string :=
  match s with
  | String c rest =>
      match digit_of c with
      | Some d => read_digits rest (acc * 10 + d) (S count)
      | None => (acc, count, s)
      end
  | EmptyString => (acc, count, s)
  end.

(** [mantissa * 10^exponent] as a reduced fraction. *)
Definition decimal (mantissa exponent : Z) : Q :=
  if 0 <=? exponent then inject_Z (mantissa * 10 ^ exponent)
  else Qred (Qmake mantissa (Z.to_pos (10 ^ (- exponent)))).

(** number = [-] int [frac] [exp] *)
Definition parse_number (s : string) : option (Q * string) :=
  let '(negative, s) :=
    match s with
    | String "-" rest => (true, rest)
    | _ => (false, s)
    end in
  let int_part :=
    match s with
    | String "0" rest => Some (0, rest)
    | _ => match read_digits s 0 0 with
           | (_, O, _) => None
           | (n, S _, rest) => Some (n, rest)
           end
    end in
  match int_part with
  | None => None
  | Some (n, s) =>
      let frac_part :=
        match s with
        | String "." rest =>
            match read_digits rest n 0 with
            | (_, O, _) => None
            | (m, S k, rest') => Some (m, Z.of_nat (S k), rest')
            end
        | _ => Some (n, 0, s)
        end in
      match frac_part with
      | None => None
      | Some (m, k, s) =>
          let exp_part :=
            match s with
            | String c rest =>
                if Ascii.eqb c "e" || Ascii.eqb c "E" then
                  let '(sign, rest) :=
                    match rest with
                    | String "-" r => (-1, r)
                    | String "+" r => (1, r)
                    | _ => (1, rest)
                    end in
                  match read_digits rest 0 0 with
                  | (_, O, _) => None
                  | (e, S _, rest') => Some (sign * e, rest')
                  end
                else Some (0, s)
            | EmptyString => Some (0, s)
            end in
          match exp_part with
          | None => None
          | Some (e, s) =>
              let m := if negative : bool then - m else m in
              Some (decimal m (e - k), s)
          end
      end
  end.

(** The character a two-character escape stands for. *)
Definition unescape (c : ascii) : option ascii :=
  if Ascii.eqb c dquote then Some dquote
  else if Ascii.eqb c backslash then Some backslash
  else if Ascii.eqb c "/" then Some "/"%char
  else if Ascii.eqb c "b" then Some "008"%char
  else if Ascii.eqb c "f" then Some "012"%char
  else if Ascii.eqb c "n" then Some "010"%char
  else if Ascii.eqb c "r" then Some "013"%char
  else if Ascii.eqb c "t" then Some "009"%char
  else None.

(** The characters of a string after its opening quote, up to and
    excluding the closing one.  A [\uXXXX] escape is read when it names
    a 7-bit character. *)
Fixpoint parse_string_body (s : string) : option (string * string) :=
  match s with
  | EmptyString => None
  | String c rest =>
      if Ascii.eqb c dquote then Some (EmptyString, rest)
      else if Ascii.eqb c backslash then
        match rest with
        | String e rest' =>
            match unescape e with
            | Some ch =>
                match parse_string_body rest' with
                | Some (body, r) => Some (String ch body, r)
                | None => None
                end
            | None =>
                match rest' with
                | String h1 (String h2 (String h3 (String h4 rest''))) =>
                    match hex_digit_of h1, hex_digit_of h2, hex_digit_of h3, hex_digit_of h4 with
                    | Some a, Some b, Some c', Some d =>
                        let code := (((a * 16 + b) * 16 + c') * 16 + d)%nat in
                        if Ascii.eqb e "u" && (code <? 128)%nat then
                          match parse_string_body rest'' with
                          | Some (body, r) => Some (String (ascii_of_nat code) body, r)
                          | None => None
                          end
                        else None
                    | _, _, _, _ => None
                    end
                | _ => None
                end
            end
        | EmptyString => None
        end
      else if (nat_of_ascii c <? 32)%nat then None
      else match parse_string_body rest with
           | Some (body, r) => Some (String c body, r)
           | None => None
           end
  end.

(** value, elements of an array after [[] or [,], members of an object
    after [{] or [,].  Every call spends one unit of [fuel]. *)
Fixpoint parse_value (fuel : nat) (s : string) {struct fuel} : option (JsValue * string) :=
  match fuel with
  | O => None
  | S fuel =>
      match skip_ws s with
      | EmptyString => None
      | String c rest =>
          if Ascii.eqb c "{" then
            match skip_ws rest with
            | String "}" rest' => Some (JsObject [], rest')
            | _ => match parse_members fuel rest with
                   | Some (fields, rest') => Some (JsObject fields, rest')
                   | None => None
                   end
            end
          else if Ascii.eqb c "[" then
            match skip_ws rest with
            | String "]" rest' => Some (JsArray [], rest')
            | _ => match parse_elements fuel rest with
                   | Some (items, rest') => Some (JsArray items, rest')
                   | None => None
                   end
            end
          else if Ascii.eqb c dquote then
            match parse_string_body rest with
            | Some (body, rest') => Some (JsString body, rest')
            | None => None
            end
          else if Ascii.eqb c "t" then
            match strip_prefix "rue" rest with
            | Some rest' => Some (JsBool true, rest')
            | None => None
            end
          else if Ascii.eqb c "f" then
            match strip_prefix "alse" rest with
            | Some rest' => Some (JsBool false, rest')
            | None => None
            end
          else if Ascii.eqb c "n" then
            match strip_prefix "ull" rest with
            | Some rest' => Some (JsNull, rest')
            | None => None
            end
          else match parse_number (String c rest) with
               | Some (q, rest') => Some (JsNumber q, rest')
               | None => None
               end
      end
  end
with parse_elements (fuel : nat) (s : string) {struct fuel} : option (list JsValue * string) :=
  match fuel with
  | O => None
  | S fuel =>
      match parse_value fuel s with
      | Some (v, rest) =>
          match skip_ws rest with
          | String "," rest' =>
              match parse_elements fuel rest' with
              | Some (vs, r) => Some (v :: vs, r)
              | None => None
              end
          | String "]" rest' => Some ([v], rest')
          | _ => None
          end
      | None => None
      end
  end
with parse_members (fuel : nat) (s : string) {struct fuel} : option (list (string * JsValue) * string) :=
  match fuel with
  | O => None
  | S fuel =>
      match skip_ws s with
      | String c rest =>
          if Ascii.eqb c dquote then
            match parse_string_body rest with
            | Some (key, rest1) =>
                match skip_ws rest1 with
                | String ":" rest2 =>
                    match parse_value fuel rest2 with
                    | Some (v, rest3) =>
                        match skip_ws rest3 with
                        | String "," rest4 =>
                            match parse_members fuel rest4 with
                            | Some (fields, r) => Some ((key, v) :: fields, r)
                            | None => None
                            end
                        | String "}" rest4 => Some ([(key, v)], rest4)
                        | _ => None
                        end
                    | None => None
                    end
                | _ => None
                end
            | None => None
            end
          else None
      | EmptyString => None
      end
  end.

(** A JSON text is one value between optional white space.  No call
    chain is longer than twice the text plus two. *)
Definition parse_text (s : string) : option JsValue :=
  match parse_value (2 * String.length s + 2) s with
  | Some (v, rest) => if string_is_empty (skip_ws rest) then Some v else None
  | None => None
  end.

(** [JSON.parse(v)] for a string [v].  For another argument the built-in
    first converts it to a string; the reference reader is only run on
    strings and rejects the rest. *)
Definition parse (v : JsValue) : option JsValue :=
  match v with
  | JsString s => parse_text s
  | _ => None
  end.

(** Builds the text [dquote s dquote]. *)
Definition quoted (s : string) : string :=
  String dquote (s ++ String dquote EmptyString)%string.

End JSON.

(** * Vocabulary of the specification *)

(** ** Attempts of a retried operation *)

Section Attempts.

Context {A : Type}.
Variable env : Env.
Variable fn : M A.
Variable w : World.

(** The world in which attempt [k] (counted from 0) starts when every
    earlier attempt failed and was followed by its backoff pause. *)
Fixpoint attempt_world (k : nat) : World :=
  match k with
  | O => w
  | S j => after_backoff env (Z.of_nat j) (snd (fn (attempt_world j)))
  end.

(** What attempt [k] does. *)
Definition attempt (k : nat) : Completion A := fst (fn (attempt_world k)).

(** The world attempt [k] leaves. *)
Definition world_after_attempt (k : nat) : World := snd (fn (attempt_world k)).

End Attempts.

Definition threw {A : Type} (c : Completion A) : bool :=
  match c with Throw _ => true | Normal _ => false end.

(** A reply that makes [apiCall] throw: no response, a status outside
    200-299, or a body that is not JSON. *)
Definition reply_fails (r : FetchReply) : bool :=
  match r with
  | NoResponse => true
  | HttpResponse status body =>
      negb (response_ok status) || match body with None => true | Some _ => false end
  end.

(** ** The decoder's failures

    The program raises untyped [Error]s; the specification's error names
    are told apart by the statement that raises. *)

(** Raised at lines 138-139, when no text is extracted: the envelope has
    no properties to read, or the text of its first candidate is absent
    or empty. *)
Definition EmptyResponseError (e : JsError) : Prop :=
  e = TypeErrorReading "candidates" \/
  e = Error "API response was empty or malformed.".

(** Raised at lines 142-145, when the text is parsed and validated:
    [JSON.parse] threw, the parsed value has no properties to read, or
    its [health_percentage] is not a number. *)
Definition SchemaViolationError (e : JsError) : Prop :=
  e = SyntaxError \/
  e = TypeErrorReading "health_percentage" \/
  e = Error "Invalid health percentage received.".

(** Raised by [fileToBase64], when the image cannot be read. *)
Definition EncodingError (e : JsError) : Prop := e = FileReaderError.

(** No text comes out of [result.candidates?.[0]?.content?.parts?.[0]?.text]:
    the read throws, or gives [undefined], an empty string or another
    falsy value. *)
Definition text_missing (result : JsValue) : bool :=
  match first_candidate_text result with
  | Normal text => negb (truthy text)
  | Throw _ => true
  end.

(** A response envelope [{ candidates: [{ content: { parts: [{ text }] } }] }]. *)
Definition envelope_with_text (text : JsValue) : JsValue :=
  JsObject [("candidates", JsArray [
    JsObject [("content", JsObject [("parts", JsArray [JsObject [("text", text)]])])]])].

(** An envelope with no candidates. *)
Definition envelope_without_candidates : JsValue := JsObject [("candidates", JsArray [])].

(** ** The data-model invariants of an analysis result (section 3) *)

Definition is_integer (q : Q) : bool := (Qnum q mod Zpos (Qden q) =? 0).

(** [healthPercentage]: an integer between 0 and 100. *)
Definition healthPercentage_ok (v : JsValue) : bool :=
  match v with
  | JsNumber q => is_integer q && Qle_bool 0 q && Qle_bool q 100
  | _ => false
  end.

Definition nonempty_string (v : JsValue) : bool :=
  match v with
  | JsString s => negb (string_is_empty s)
  | _ => false
  end.

(** [remedies]: three to five non-empty strings. *)
Definition remedies_ok (v : JsValue) : bool :=
  match v with
  | JsArray items =>
      (3 <=? List.length items)%nat && (List.length items <=? 5)%nat && forallb nonempty_string items
  | _ => false
  end.

Definition AnalysisResult_invariants (r : JsValue) : bool :=
  healthPercentage_ok (get_property r (Named "health_percentage"))
  && nonempty_string (get_property r (Named "predicted_disease"))
  && remedies_ok (get_property r (Named "home_remedies")).

(** ** The subscription view, in the words of the specification

    The window of the [n] most recent turns: the last [n] of the log in
    ascending [createdAt] order. *)
Definition most_recent (n : nat) (log : list Doc) : list Doc :=
  let ordered := orderBy_timestamp_asc log in
  skipn (List.length ordered - n) ordered.

(** The view the specification has a subscriber receive: the turns with
    text among the 50 most recent, in ascending order. *)
Definition spec_subscription_view (log : list Doc) : list Doc :=
  GardeningBot.with_text (most_recent 50 log).

(** What [apiCall] makes of a reply. *)
Definition apiCall_outcome (r : FetchReply) : Completion JsValue :=
  match r with
  | NoResponse => Throw FetchFailed
  | HttpResponse status body =>
      if negb (response_ok status) then Throw (ApiStatusError status)
      else match body with
           | Some envelope => Normal envelope
           | None => Throw SyntaxError
           end
  end.

(** The part of the world [retryWithBackoff (apiCall ...)] leaves alone. *)
Definition same_store (w w' : World) : Prop :=
  firestore w' = firestore w /\ store_writes w' = store_writes w.

(** Ascending [createdAt]. *)
Definition older_or_same (a b : Doc) : Prop := doc_timestamp a <= doc_timestamp b.

(** ** Further vocabulary *)


(** Total of a list of delays. *)
Definition total_delay (delays : list Q) : Q := fold_right Qplus 0%Q delays.

(** The pauses of [k] failed attempts in a row, the first draw being
    draw number [first_draw]. *)
Definition backoff_pauses (env : Env) (first_draw k : nat) : list Q :=
  map (fun j => backoff_delay (Z.of_nat j) (Math_random env (first_draw + j))) (seq 0 k).

Fixpoint has_comma (s : string) : bool :=
  match s with
  | EmptyString => false
  | String c rest => Ascii.eqb c "," || has_comma rest
  end.

(** What [fileToBase64] resolves with for a data URL. *)
Definition base64_of (url : string) : JsValue :=
  match nth_error (split_comma url) 1 with
  | Some data => JsString data
  | None => JsUndefined
  end.

(** The request a scan of file [f] sends when the file reads as [url]. *)
Definition scan_request (f : File) (url : string) : Request :=
  mkRequest apiUrl
    (PlantScanner.scan_payload
       (if string_is_empty (file_type f) then "image/png" else file_type f)
       (base64_of url)).

(** The state [handleScan] leaves for a file: a result and no error, or
    the generic message and no result. *)
Definition scanned (f : File) (outcome : Completion JsValue) : PlantScanner.State :=
  match outcome with
  | Normal r => PlantScanner.mkState (Some f) (Some r) false None
  | Throw _ => PlantScanner.mkState (Some f) None false (Some PlantScanner.analysis_failed_message)
  end.

(** How good a badge colour is: red, yellow, green. *)
Definition color_rank (classes : string) : nat :=
  if String.eqb classes "text-green-600 bg-green-100 border-green-300" then 2
  else if String.eqb classes "text-yellow-600 bg-yellow-100 border-yellow-300" then 1
  else 0.

(** What the user does to the scanner: picks a file (or dismisses the
    picker), or presses the scan button and waits for the scan to end. *)
Inductive ScannerEvent :=
| FileChanged (selected : option File)
| ScanClicked.

Definition scanner_initial : PlantScanner.State :=
  PlantScanner.mkState None None false None.

Definition scanner_step (env : Env) (JSON_parse : JsValue -> option JsValue)
    (sw : PlantScanner.State * World) (ev : ScannerEvent) : PlantScanner.State * World :=
  match ev with
  | FileChanged selected => (PlantScanner.handleFileChange selected (fst sw), snd sw)
  | ScanClicked =>
      match PlantScanner.handleScan env JSON_parse (fst sw) (snd sw) with
      | (Normal st', w') => (st', w')
      | (Throw _, w') => (fst sw, w')
      end
  end.

Definition scanner_run (env : Env) (JSON_parse : JsValue -> option JsValue)
    (events : list ScannerEvent) (w : World) : PlantScanner.State * World :=
  fold_left (scanner_step env JSON_parse) events (scanner_initial, w).

(** A string of white space only. *)
Definition blank (s : string) : bool := forallb is_whitespace (chars s).

(** What holds of the scanner between two events. *)
Definition scanner_invariant (st : PlantScanner.State) : Prop :=
  PlantScanner.loading st = false /\
  (PlantScanner.scanResult st = None \/ PlantScanner.error st = None) /\
  (PlantScanner.file st = None -> PlantScanner.scanResult st = None /\ PlantScanner.error st = None) /\
  (forall r, PlantScanner.scanResult st = Some r ->
             typeof (get_property r (Named "health_percentage")) = TyNumber).


(** The guard of [handleSend]. *)
Definition send_rejected (props : GardeningBot.Props) (st : GardeningBot.State) : bool :=
  string_is_empty (trim (GardeningBot.input st)) || GardeningBot.loading st
  || negb (GardeningBot.db props) || GardeningBot.no_userId props.

(** The document the k-th write of the store creates. *)
Definition stored_doc (env : Env) (k : nat) (role : string) (text : JsValue) : Doc :=
  mkDoc (new_doc_id env k) role text (server_time env k).

(** A turn more recent than every turn of the log. *)
Definition newer_than_all (timestamp : Z) (log : list Doc) : Prop :=
  forall x, x ∈ log -> doc_timestamp x < timestamp.

(** [{ role: 'user', parts: [{ text: userMessage }] }], the last entry
    of the contents of a chat request. *)
Definition user_entry (userMessage : string) : JsValue :=
  JsObject [("role", JsString "user");
            ("parts", JsArray [JsObject [("text", JsString userMessage)]])].

Definition role_is_user_or_model (entry : JsValue) : Prop :=
  get_property entry (Named "role") = JsString "user" \/
  get_property entry (Named "role") = JsString "model".

(** What happens to the mounted [App]: the auth listener fires, or a
    view button is pressed.  The listener exists only when the effect
    found a Firebase configuration. *)
Inductive AppEvent :=
| AuthStateChanged (user : option string) (randomUUID : string)
| ViewSelected (v : string).

Definition app_step (firebaseConfig : bool) (st : App.State) (ev : AppEvent) : App.State :=
  match ev with
  | AuthStateChanged user randomUUID =>
      if firebaseConfig then App.authStateChanged user randomUUID st else st
  | ViewSelected v => App.setView v st
  end.

Definition app_run (firebaseConfig : bool) (events : list AppEvent) : App.State :=
  fold_left (app_step firebaseConfig) events (App.mount firebaseConfig App.initial).

(** * Concrete inputs *)

Module Examples.

Import JSON.

(** An environment: the network gives no response, [Math.random()]
    returns one half, the store acknowledges every write, names the k-th
    document [doc<k>] and stamps it with [k]. *)
Definition quiet_env : Env :=
  {| appId := "default-app-id";
     network := fun _ _ => NoResponse;
     Math_random := fun _ => (1 # 2)%Q;
     store_accepts := fun _ => true;
     new_doc_id := fun k => "doc" ++ index_name k;
     server_time := fun k => Z.of_nat k |}.

(** The same environment with the network replaced. *)
Definition env_with_network (net : nat -> Request -> FetchReply) : Env :=
  {| appId := appId quiet_env;
     network := net;
     Math_random := Math_random quiet_env;
     store_accepts := store_accepts quiet_env;
     new_doc_id := new_doc_id quiet_env;
     server_time := server_time quiet_env |}.

(** A network that answers the k-th request with status [500 + k]. *)
Definition failing_network : nat -> Request -> FetchReply :=
  fun k _ => HttpResponse (500 + Z.of_nat k) None.

(** A network that answers every request with the given envelope. *)
Definition answering_network (envelope : JsValue) : nat -> Request -> FetchReply :=
  fun _ _ => HttpResponse 200 (Some envelope).

(** A network that fails [n] times and then answers with the envelope. *)
Definition recovering_network (n : nat) (envelope : JsValue) : nat -> Request -> FetchReply :=
  fun k req => if (k <? n)%nat then failing_network k req else answering_network envelope k req.

Definition empty_world : World := mkWorld ∅ [] 0 0 [].

Definition ping : JsValue := JsObject [("contents", JsArray [])].

(** The JSON object with [health_percentage] 72, [predicted_disease]
    Leaf Blight and three [home_remedies]. *)
Definition leaf_blight_text : string :=
  "{" ++ quoted "health_percentage" ++ ": 72, "
      ++ quoted "predicted_disease" ++ ": " ++ quoted "Leaf Blight" ++ ", "
      ++ quoted "home_remedies" ++ ": [" ++ quoted "Isolate the plant" ++ ", "
      ++ quoted "Remove affected leaves" ++ ", " ++ quoted "Spray diluted soap" ++ "]}".

(** The same body with [health_percentage] the string [high]. *)
Definition high_text : string :=
  "{" ++ quoted "health_percentage" ++ ": " ++ quoted "high" ++ ", "
      ++ quoted "predicted_disease" ++ ": " ++ quoted "Leaf Blight" ++ ", "
      ++ quoted "home_remedies" ++ ": [" ++ quoted "Isolate the plant" ++ ", "
      ++ quoted "Remove affected leaves" ++ ", " ++ quoted "Spray diluted soap" ++ "]}".

(** A body that passes the check of the program and breaks every
    invariant of the data model: [health_percentage] is 150.5,
    [predicted_disease] the empty string and [home_remedies] the empty
    array. *)
Definition out_of_model_text : string :=
  "{" ++ quoted "health_percentage" ++ ": 150.5, "
      ++ quoted "predicted_disease" ++ ": " ++ quoted EmptyString ++ ", "
      ++ quoted "home_remedies" ++ ": []}".

Definition out_of_model_result : JsValue :=
  JsObject [("health_percentage", JsNumber (301 # 2));
            ("predicted_disease", JsString EmptyString);
            ("home_remedies", JsArray [])].

(** A readable PNG and an unreadable file. *)
Definition leaf_png : File := mkFile "image/png" (Some "data:image/png;base64,iVBORw0KGgo=").
Definition unreadable_file : File := mkFile "image/png" None.

Definition scanner_with (f : File) : PlantScanner.State :=
  PlantScanner.mkState (Some f) None false None.

(** A signed-in chat with an empty transcript. *)
Definition gardener : GardeningBot.Props := GardeningBot.mkProps true (Some "user-1").

Definition typing (text : string) : GardeningBot.State :=
  GardeningBot.mkState [] text false.

(** [n] turns appended one after the other, the k-th with text
    [turn <k>]. *)
Fixpoint append_turns (env : Env) (n : nat) (w : World) : World :=
  match n with
  | O => w
  | S m =>
      let w' := append_turns env m w in
      snd (GardeningBot.addDoc env gardener "user" (JsString ("turn " ++ index_name m)) w')
  end.

(** The k-th of those turns, as stored. *)
Definition turn (k : nat) : Doc :=
  mkDoc ("doc" ++ index_name k) "user" (JsString ("turn " ++ index_name k)) (Z.of_nat k).

(** The parsed [leaf_blight_text]. *)
Definition leaf_blight_result : JsValue :=
  JsObject [("health_percentage", JsNumber (inject_Z 72));
            ("predicted_disease", JsString "Leaf Blight");
            ("home_remedies", JsArray [JsString "Isolate the plant";
                                       JsString "Remove affected leaves";
                                       JsString "Spray diluted soap"])].

(** Environments whose network always answers with one text. *)
Definition out_of_model_env : Env :=
  env_with_network (answering_network (envelope_with_text (JsString out_of_model_text))).
Definition leaf_blight_env : Env :=
  env_with_network (answering_network (envelope_with_text (JsString leaf_blight_text))).
Definition empty_text_env : Env :=
  env_with_network (answering_network (envelope_with_text (JsString EmptyString))).
Definition advice_env : Env :=
  env_with_network (answering_network (envelope_with_text (JsString "Water it less."))).

(** An environment whose network fails twice and then answers. *)
Definition recovering_env : Env :=
  env_with_network (recovering_network 2 (envelope_with_text (JsString leaf_blight_text))).

(** An environment whose network always fails. *)
Definition failing_env : Env := env_with_network failing_network.

(** An environment whose network fails twice and then answers with
    advice. *)
Definition recovering_advice_env : Env :=
  env_with_network (recovering_network 2 (envelope_with_text (JsString "Water it less."))).

(** An environment that loses its connection after the first write: no
    request is answered, and the store acknowledges the first write
    only. *)
Definition offline_env : Env :=
  {| appId := appId quiet_env;
     network := network quiet_env;
     Math_random := Math_random quiet_env;
     store_accepts := fun k => Nat.eqb k 0;
     new_doc_id := new_doc_id quiet_env;
     server_time := server_time quiet_env |}.

(** A photo taken with a camera that reports no type. *)
Definition untyped_photo : File := mkFile EmptyString (Some "data:;base64,AAECAw==").

(** Inputs of the chat box: white space only (a space, a no-break
    space, a tab, an ideographic space), and texts framed by white space
    beyond the 7-bit one (no-break space, paragraph separator). *)
Definition spaces_only : string := utf8 [32; 194; 160; 9; 227; 128; 128]%nat.
Definition padded_hi : string := utf8 [194; 160; 104; 105; 194; 160]%nat.
Definition padded_question : string :=
  utf8 [194; 160]%nat ++ " my fern is yellow" ++ utf8 [226; 128; 169; 10]%nat.

End Examples.

(** * Properties *)

(** Unfolds the sequencing of [M]. *)
Ltac unfold_M := unfold mbind, M_bind, mret, M_ret, throw, lift, try_catch in *.

(** ** [retryWithBackoff] *)

(** The deterministic part of the delay. *)
Lemma backoff_floor_value (i : Z) :
  0 <= i -> (backoff_floor i == inject_Z (2 ^ i * 1000))%Q.
Proof.
  intros Hi. unfold backoff_floor.
  rewrite inject_Z_mult, Zpower_Qpower by exact Hi. reflexivity.
Qed.




Lemma jitter_range (r : Q) :
  (0 <= r)%Q -> (r < 1)%Q -> (0 <= r * 1000)%Q /\ (r * 1000 < 1000)%Q.
Proof.
  intros H0 H1. split; lra.
Qed.


Section RetryFacts.

Context {A : Type}.
Variable env : Env.
Variable fn : M A.

(** One turn of the [for] loop. *)
Lemma retry_loop_body (maxRetries i : Z) (w : World) (attempts : nat) :
  retry_loop env fn maxRetries i w attempts =
  if Z_lt_dec i maxRetries then
    match fn w with
    | (Normal v, w1) => (Normal (Some v), w1, S attempts)
    | (Throw error, w1) =>
        if Z.eq_dec i (maxRetries - 1) then (Throw error, w1, S attempts)
        else retry_loop env fn maxRetries (i + 1) (after_backoff env i w1) (S attempts)
    end
  else (Normal None, w, attempts).
Proof.
  simp retry_loop. destruct (Z_lt_dec i maxRetries); simpl; [|reflexivity].
  destruct (fn w) as [[v|e] w1]; simpl; [reflexivity|].
  destruct (Z.eq_dec i (maxRetries - 1)); reflexivity.
Qed.

Lemma threw_inv (c : Completion A) : threw c = true -> exists e, c = Throw e.
Proof. destruct c; [discriminate | eauto]. Qed.

(** Failed attempts that are not the last one are passed over: the loop
    reaches index [k] in the world [attempt_world k], having invoked
    [fn] [k] times. *)
Lemma retry_loop_skip (maxRetries : Z) (w : World) (k : nat) :
  Z.of_nat k < maxRetries ->
  (forall j, (j < k)%nat -> threw (attempt env fn w j) = true) ->
  retry_loop env fn maxRetries 0 w 0 =
  retry_loop env fn maxRetries (Z.of_nat k) (attempt_world env fn w k) k.
Proof.
  induction k as [|k IH]; intros Hk Hfail; [reflexivity|].
  rewrite IH by (try lia; intros j Hj; apply Hfail; lia).
  rewrite retry_loop_body.
  destruct (Z_lt_dec (Z.of_nat k) maxRetries) as [_|]; [|lia].
  destruct (threw_inv _ (Hfail k ltac:(lia))) as [e He].
  unfold attempt in He. simpl attempt_world.
  destruct (fn (attempt_world env fn w k)) as [c w1]. simpl in He. subst c. simpl.
  destruct (Z.eq_dec (Z.of_nat k) (maxRetries - 1)); [lia|].
  replace (Z.of_nat k + 1) with (Z.of_nat (S k)) by lia. reflexivity.
Qed.

(** From index [i] on, the loop invokes [fn] at most [maxRetries - i]
    times. *)
Lemma retry_loop_attempts_bound (maxRetries i : Z) (w : World) (attempts : nat) :
  (snd (retry_loop env fn maxRetries i w attempts) <= attempts + Z.to_nat (maxRetries - i))%nat.
Proof.
  remember (Z.to_nat (maxRetries - i)) as n eqn:Hn.
  revert i w attempts Hn. induction n as [|n IH]; intros i w attempts Hn;
    rewrite retry_loop_body; destruct (Z_lt_dec i maxRetries); simpl; try lia.
  destruct (fn w) as [[v|e] w1]; simpl; [lia|].
  destruct (Z.eq_dec i (maxRetries - 1)); simpl; [lia|].
  specialize (IH (i + 1) (after_backoff env i w1) (S attempts) ltac:(lia)). lia.
Qed.

(** When every attempt fails, the loop stops at the failure of attempt
    [maxRetries - 1] and rethrows it. *)
Lemma retry_loop_exhausted (maxRetries : Z) (w : World) (e : JsError) :
  1 <= maxRetries ->
  (forall k, Z.of_nat k < maxRetries -> threw (attempt env fn w k) = true) ->
  let last := Z.to_nat (maxRetries - 1) in
  attempt env fn w last = Throw e ->
  retry_loop env fn maxRetries 0 w 0 = (Throw e, world_after_attempt env fn w last, S last).
Proof.
  intros Hmax Hfail last He.
  assert (Hlast : Z.of_nat last = maxRetries - 1) by (unfold last; lia).
  rewrite (retry_loop_skip maxRetries w last) by (try lia; intros j Hj; apply Hfail; lia).
  rewrite retry_loop_body.
  destruct (Z_lt_dec (Z.of_nat last) maxRetries); [|lia].
  unfold attempt in He. unfold world_after_attempt.
  destruct (fn (attempt_world env fn w last)) as [c w1]. simpl in He. subst c.
  destruct (Z.eq_dec (Z.of_nat last) (maxRetries - 1)); [reflexivity|lia].
Qed.

(** C3. An operation that fails on every attempt is invoked exactly
    [maxAttempts] times (for [maxAttempts >= 1]) and the caller receives
    the very error thrown by the last attempt; no pause follows that
    attempt. *)
Theorem retry_always_failing (maxAttempts : Z) (w : World) :
  1 <= maxAttempts ->
  (forall k, Z.of_nat k < maxAttempts -> threw (attempt env fn w k) = true) ->
  let last := Z.to_nat (maxAttempts - 1) in
  invocations env fn maxAttempts w = Z.to_nat maxAttempts /\
  exists e, attempt env fn w last = Throw e /\
            retryWithBackoff env fn maxAttempts w = (Throw e, world_after_attempt env fn w last).
Proof.
  intros Hmax Hfail last.
  destruct (threw_inv _ (Hfail last ltac:(unfold last; lia))) as [e He].
  pose proof (retry_loop_exhausted maxAttempts w e Hmax Hfail He) as Hrun.
  split.
  - unfold invocations. rewrite Hrun. simpl. lia.
  - exists e. split; [exact He|]. unfold retryWithBackoff. rewrite Hrun. reflexivity.
Qed.

(** C4. When attempts [0 .. k-1] fail and attempt [k < maxAttempts]
    succeeds with [v], the caller receives [v] and the operation has
    been invoked exactly [k + 1] times. *)
Theorem retry_succeeds_at (maxAttempts : Z) (w : World) (k : nat) (v : A) :
  Z.of_nat k < maxAttempts ->
  (forall j, (j < k)%nat -> threw (attempt env fn w j) = true) ->
  attempt env fn w k = Normal v ->
  retryWithBackoff env fn maxAttempts w = (Normal (Some v), world_after_attempt env fn w k) /\
  invocations env fn maxAttempts w = S k.
Proof.
  intros Hk Hfail Hv.
  assert (Hrun : retry_loop env fn maxAttempts 0 w 0 =
                 (Normal (Some v), world_after_attempt env fn w k, S k)).
  { rewrite (retry_loop_skip maxAttempts w k Hk Hfail), retry_loop_body.
    destruct (Z_lt_dec (Z.of_nat k) maxAttempts); [|lia].
    unfold attempt in Hv. unfold world_after_attempt.
    destruct (fn (attempt_world env fn w k)) as [c w1]. simpl in Hv. subst c. reflexivity. }
  unfold retryWithBackoff, invocations. rewrite Hrun. split; reflexivity.
Qed.

(** C10. With [maxAttempts <= 0] the loop body never runs: the operation
    is not invoked, nothing is thrown, the world is untouched and the
    function returns [undefined]. *)
Theorem retry_no_attempts (maxAttempts : Z) (w : World) :
  maxAttempts <= 0 ->
  retryWithBackoff env fn maxAttempts w = (Normal None, w) /\
  invocations env fn maxAttempts w = 0%nat.
Proof.
  intros Hmax. unfold retryWithBackoff, invocations. rewrite retry_loop_body.
  destruct (Z_lt_dec 0 maxAttempts); [lia|]. split; reflexivity.
Qed.

End RetryFacts.

(** ** Decoding the response (lines 138-145) *)

Section ScanFacts.

Import PlantScanner.

Variable env : Env.
Variable JSON_parse : JsValue -> option JsValue.

Lemma decode_falsy_text (result text : JsValue) :
  first_candidate_text result = Normal text ->
  truthy text = false ->
  decode JSON_parse result = Throw (Error "API response was empty or malformed.").
Proof. intros Htext Hfalsy. unfold decode. rewrite Htext, Hfalsy. reflexivity. Qed.

(** A [null] or [undefined] response stops the read of [candidates]
    itself. *)
Lemma decode_nullish_envelope (result : JsValue) :
  nullish result = true ->
  decode JSON_parse result = Throw (TypeErrorReading "candidates").
Proof.
  intros Hnull. unfold decode, first_candidate_text, get_member. rewrite Hnull. reflexivity.
Qed.

Lemma decode_text_missing (result : JsValue) :
  text_missing result = true ->
  decode JSON_parse result =
    Throw (if nullish result then TypeErrorReading "candidates"
           else Error "API response was empty or malformed.").
Proof.
  unfold text_missing, decode, first_candidate_text, get_member.
  destruct (nullish result); [reflexivity|].
  intros Hfalsy. apply negb_true_iff in Hfalsy. rewrite Hfalsy. reflexivity.
Qed.

Lemma decode_unparsable_text (result text : JsValue) :
  first_candidate_text result = Normal text ->
  truthy text = true ->
  JSON_parse text = None ->
  decode JSON_parse result = Throw SyntaxError.
Proof. intros Htext Htruthy Hparse. unfold decode. rewrite Htext, Htruthy, Hparse. reflexivity. Qed.

Lemma decode_health_not_number (result text parsed : JsValue) :
  first_candidate_text result = Normal text ->
  truthy text = true ->
  JSON_parse text = Some parsed ->
  typeof (get_property parsed (Named "health_percentage")) <> TyNumber ->
  decode JSON_parse result =
    Throw (if nullish parsed then TypeErrorReading "health_percentage"
           else Error "Invalid health percentage received.").
Proof.
  intros Htext Htruthy Hparse Hty. unfold decode, get_member.
  rewrite Htext, Htruthy, Hparse. simpl.
  destruct (nullish parsed); [reflexivity|].
  destruct (typeof (get_property parsed (Named "health_percentage"))); simpl; congruence.
Qed.

(** What a successful decoding guarantees, and nothing more: the result
    is what [JSON.parse] made of the non-empty text of the first
    candidate, and its [health_percentage] is a number. *)
Lemma decode_normal_inv (result r : JsValue) :
  decode JSON_parse result = Normal r ->
  exists text,
    first_candidate_text result = Normal text /\
    truthy text = true /\
    JSON_parse text = Some r /\
    typeof (get_property r (Named "health_percentage")) = TyNumber.
Proof.
  unfold decode, get_member. intros H.
  destruct (first_candidate_text result) as [text|]; [|discriminate].
  destruct (truthy text) eqn:Htruthy; simpl in H; [|discriminate].
  destruct (JSON_parse text) as [parsed|] eqn:Hparse; [|discriminate].
  destruct (nullish parsed); [discriminate|].
  destruct (typeof (get_property parsed (Named "health_percentage"))) eqn:Hty;
    simpl in H; try discriminate.
  injection H as <-. exists text. auto.
Qed.

(** ** [handleScan] *)

Lemma scan_unreadable (f : File) (w : World) :
  file_dataURL f = None -> scan env JSON_parse f w = (Throw FileReaderError, w).
Proof. intros H. unfold scan, fileToBase64. rewrite H. reflexivity. Qed.

Lemma scan_normal_inv (f : File) (w w' : World) (r : JsValue) :
  scan env JSON_parse f w = (Normal r, w') ->
  exists result, decode JSON_parse result = Normal r.
Proof.
  unfold scan, fileToBase64. unfold_M. intros H.
  destruct (file_dataURL f); [|discriminate].
  destruct (retryWithBackoff _ _ _ w) as [[result|] w1]; [|discriminate].
  exists (value_or_undefined result).
  destruct (decode JSON_parse (value_or_undefined result)); congruence.
Qed.

(** Whatever the [try] block throws, the component ends with the one
    generic message and no result. *)
Lemma handleScan_failure (st : State) (f : File) (w w' : World) (e : JsError) :
  file st = Some f ->
  scan env JSON_parse f w = (Throw e, w') ->
  handleScan env JSON_parse st w =
    (Normal (mkState (Some f) None false (Some analysis_failed_message)), w').
Proof.
  intros Hf Hscan. unfold handleScan. rewrite Hf. unfold_M. rewrite Hscan.
  unfold setLoading, setError, setScanResult. simpl. rewrite Hf. reflexivity.
Qed.

Lemma handleScan_success (st : State) (f : File) (w w' : World) (r : JsValue) :
  file st = Some f ->
  scan env JSON_parse f w = (Normal r, w') ->
  handleScan env JSON_parse st w = (Normal (mkState (Some f) (Some r) false None), w').
Proof.
  intros Hf Hscan. unfold handleScan. rewrite Hf. unfold_M. rewrite Hscan.
  unfold setLoading, setError, setScanResult. simpl. rewrite Hf. reflexivity.
Qed.

(** [handleScan] itself never throws. *)
Lemma handleScan_returns (st : State) (w : World) :
  exists st' w', handleScan env JSON_parse st w = (Normal st', w').
Proof.
  destruct (file st) as [f|] eqn:Hf.
  - destruct (scan env JSON_parse f w) as [[r|e] w'] eqn:Hscan.
    + rewrite (handleScan_success st f w w' r Hf Hscan). eauto.
    + rewrite (handleScan_failure st f w w' e Hf Hscan). eauto.
  - unfold handleScan. rewrite Hf. unfold_M. eauto.
Qed.

(** C9. An image that cannot be read makes the scan fail with the
    reader's error before anything is sent: the world, and with it the
    list of requests, is unchanged.  The component catches this error,
    like every error of the scan, and shows the one generic message. *)
Theorem scan_unreadable_image (st : State) (f : File) (w : World) :
  file st = Some f ->
  file_dataURL f = None ->
  (exists e, EncodingError e /\ scan env JSON_parse f w = (Throw e, w)) /\
  handleScan env JSON_parse st w =
    (Normal (mkState (Some f) None false (Some analysis_failed_message)), w) /\
  requests (snd (handleScan env JSON_parse st w)) = requests w /\
  (forall (w0 w1 : World) (e : JsError),
     scan env JSON_parse f w0 = (Throw e, w1) ->
     handleScan env JSON_parse st w0 =
       (Normal (mkState (Some f) None false (Some analysis_failed_message)), w1)).
Proof.
  intros Hf Hread.
  pose proof (scan_unreadable f w Hread) as Hscan.
  pose proof (handleScan_failure st f w w FileReaderError Hf Hscan) as Hrun.
  split_and!.
  - exists FileReaderError. split; [reflexivity | exact Hscan].
  - exact Hrun.
  - rewrite Hrun. reflexivity.
  - intros w0 w1 e He. exact (handleScan_failure st f w0 w1 e Hf He).
Qed.

End ScanFacts.

(** ** The inference call under retry *)

Section ApiCallFacts.

Variable env : Env.
Variable payload : JsValue.

Lemma apiCall_run (w : World) :
  apiCall env payload w =
    (apiCall_outcome (network env (List.length (requests w)) (mkRequest apiUrl payload)),
     with_requests (requests w ++ [mkRequest apiUrl payload])%list w).
Proof.
  unfold apiCall, fetch, apiCall_outcome. unfold_M.
  destruct (network env _ _) as [|status [body|]]; simpl; try reflexivity;
    destruct (response_ok status); reflexivity.
Qed.

Lemma apiCall_outcome_threw (r : FetchReply) : threw (apiCall_outcome r) = reply_fails r.
Proof.
  destruct r as [|status [body|]]; simpl; try reflexivity;
    destruct (response_ok status); reflexivity.
Qed.

(** Failed attempts and their pauses add requests, random draws and
    timeouts; the store is not touched. *)
Lemma attempt_world_apiCall (w : World) (k : nat) :
  let aw := attempt_world env (apiCall env payload) w k in
  same_store w aw /\ List.length (requests aw) = (List.length (requests w) + k)%nat.
Proof.
  induction k as [|k [[Hfs Hsw] Hlen]]; simpl.
  - split; [split; reflexivity | lia].
  - rewrite apiCall_run. simpl. split; [split; assumption|].
    rewrite length_app, Hlen. simpl. lia.
Qed.

Lemma attempt_apiCall (w : World) (k : nat) :
  attempt env (apiCall env payload) w k =
    apiCall_outcome (network env (List.length (requests w) + k) (mkRequest apiUrl payload)).
Proof.
  unfold attempt. rewrite apiCall_run. simpl.
  destruct (attempt_world_apiCall w k) as [_ ->]. reflexivity.
Qed.

Lemma world_after_attempt_apiCall (w : World) (k : nat) :
  let w' := world_after_attempt env (apiCall env payload) w k in
  same_store w w' /\ List.length (requests w') = (List.length (requests w) + S k)%nat.
Proof.
  unfold world_after_attempt. rewrite apiCall_run. simpl.
  destruct (attempt_world_apiCall w k) as [[Hfs Hsw] Hlen].
  split; [split; assumption|]. rewrite length_app, Hlen. simpl. lia.
Qed.

(** However the retried call ends, the store is as it was. *)
Lemma retry_apiCall_same_store (maxRetries i : Z) (w : World) (attempts : nat) :
  same_store w (snd (fst (retry_loop env (apiCall env payload) maxRetries i w attempts))).
Proof.
  remember (Z.to_nat (maxRetries - i)) as n eqn:Hn.
  revert i w attempts Hn. induction n as [|n IH]; intros i w attempts Hn;
    rewrite retry_loop_body; destruct (Z_lt_dec i maxRetries); simpl;
    try (split; reflexivity); try lia.
  rewrite apiCall_run.
  destruct (apiCall_outcome _) as [v|e]; simpl; [split; reflexivity|].
  destruct (Z.eq_dec i (maxRetries - 1)); simpl; [split; reflexivity|].
  match goal with |- same_store _ (snd (fst (retry_loop _ _ _ _ ?w1 _))) =>
    destruct (IH (i + 1) w1 (S attempts) ltac:(lia)) as [Hfs Hsw] end.
  split; [rewrite Hfs | rewrite Hsw]; reflexivity.
Qed.

Lemma retryWithBackoff_apiCall_same_store (maxRetries : Z) (w w' : World) (c : Completion (option JsValue)) :
  retryWithBackoff env (apiCall env payload) maxRetries w = (c, w') -> same_store w w'.
Proof.
  unfold retryWithBackoff. intros H.
  pose proof (retry_apiCall_same_store maxRetries 0 w 0) as Hs.
  destruct (retry_loop env (apiCall env payload) maxRetries 0 w 0) as [[c0 w0] n].
  injection H as <- <-. exact Hs.
Qed.

End ApiCallFacts.

(** ** [callGeminiApi] and [handleSend] *)

Section ChatFacts.

Import GardeningBot.

Variable env : Env.
Variable props : Props.

(** An acknowledged write adds one document at the end of the log. *)
Lemma addDoc_accepted (role : string) (text : JsValue) (w : World) :
  store_accepts env (store_writes w) = true ->
  let d := mkDoc (new_doc_id env (store_writes w)) role text (server_time env (store_writes w)) in
  exists w',
    addDoc env props role text w = (Normal (doc_id d), w') /\
    chat_log env props w' = (chat_log env props w ++ [d])%list /\
    store_writes w' = S (store_writes w) /\
    requests w' = requests w.
Proof.
  intros Hok d. unfold addDoc. rewrite Hok. eexists. split; [reflexivity|].
  split_and!; try reflexivity.
  unfold chat_log at 1. simpl. apply lookup_total_insert_eq.
Qed.

Lemma same_store_chat_log (w w' : World) :
  same_store w w' -> chat_log env props w' = chat_log env props w.
Proof. intros [Hfs _]. unfold chat_log. rewrite Hfs. reflexivity. Qed.

(** A blank input, a send in progress, a missing [db] or [userId]: the
    handler returns at once and nothing is written or sent. *)
Lemma handleSend_rejected (st : State) (w : World) :
  string_is_empty (trim (input st)) || loading st || negb (db props) || no_userId props = true ->
  handleSend env props st w = (Normal st, w).
Proof. intros Hguard. unfold handleSend. rewrite Hguard. reflexivity. Qed.

(** The write of the user turn is not protected: when the store rejects
    it, the handler throws and the inference call is never made. *)
Lemma handleSend_user_write_rejected (st : State) (w : World) :
  string_is_empty (trim (input st)) || loading st || negb (db props) || no_userId props = false ->
  store_accepts env (store_writes w) = false ->
  handleSend env props st w = (Throw FirestoreError, with_store_writes (S (store_writes w)) w).
Proof.
  intros Hguard Hno. unfold handleSend. rewrite Hguard. unfold_M. unfold addDoc.
  rewrite Hno. reflexivity.
Qed.

(** C6, as the code has it. When the retried call returns an envelope
    and a text is extracted from it, a text that is not empty is
    appended as one model turn, while an empty or absent text appends
    nothing. *)
Theorem reply_appended_when_nonempty
    (msgs : list Doc) (userMessage : string) (w w1 : World) (result text : JsValue) :
  retryWithBackoff env (apiCall env (chat_payload msgs userMessage)) default_maxRetries w
    = (Normal (Some result), w1) ->
  first_candidate_text result = Normal text ->
  (truthy text = true ->
   store_accepts env (store_writes w) = true ->
   exists w2,
     callGeminiApi env props msgs userMessage w = (Normal (), w2) /\
     chat_log env props w2 =
       (chat_log env props w ++
        [mkDoc (new_doc_id env (store_writes w)) "model" text (server_time env (store_writes w))])%list) /\
  (truthy text = false ->
   callGeminiApi env props msgs userMessage w = (Normal (), w1) /\
   chat_log env props w1 = chat_log env props w).
Proof.
  intros Hretry Htext.
  pose proof (retryWithBackoff_apiCall_same_store _ _ _ _ _ _ Hretry) as Hsame.
  pose proof (same_store_chat_log _ _ Hsame) as Hlog.
  destruct Hsame as [_ Hsw].
  split.
  - intros Htruthy Hok. rewrite <- Hsw in Hok.
    destruct (addDoc_accepted "model" text w1 Hok) as (w2 & Hadd & Hlog2 & _).
    exists w2. split.
    + unfold callGeminiApi. unfold_M. rewrite Hretry. simpl.
      rewrite Htext, Htruthy, Hadd. reflexivity.
    + rewrite Hlog2, Hlog, Hsw. reflexivity.
  - intros Hfalsy. split; [|exact Hlog].
    unfold callGeminiApi. unfold_M. rewrite Hretry. simpl.
    rewrite Htext, Hfalsy. reflexivity.
Qed.

(** When the store rejects a write, [addDoc] rejects and the collection
    is as it was. *)
Lemma addDoc_rejected (role : string) (text : JsValue) (w : World) :
  store_accepts env (store_writes w) = false ->
  exists w',
    addDoc env props role text w = (Throw FirestoreError, w') /\
    chat_log env props w' = chat_log env props w /\
    requests w' = requests w.
Proof.
  intros Hno. unfold addDoc. rewrite Hno. eexists. split_and!; reflexivity.
Qed.

(** C5, as the code has it. A send that is accepted, whose write of the
    user turn the store acknowledges and whose five attempts at the
    inference call all fail, has issued five requests and appended the
    user turn with the trimmed input.  When the store acknowledges the
    write of the apology as well, the apology is appended as one model
    turn after it and the send returns normally.  When the store rejects
    that write, which the [catch] block does not protect, the send
    raises the error of the store and the user turn is the only new
    turn. *)
Theorem send_absorbs_inference_failure (st : State) (w : World) :
  let userMessage := trim (input st) in
  let request := mkRequest apiUrl (chat_payload (messages st) userMessage) in
  let k := store_writes w in
  string_is_empty userMessage = false ->
  loading st = false ->
  db props = true ->
  no_userId props = false ->
  (forall j, (j < 5)%nat ->
     reply_fails (network env (List.length (requests w) + j) request) = true) ->
  store_accepts env k = true ->
  (store_accepts env (S k) = true ->
   exists w',
     handleSend env props st w = (Normal (mkState (messages st) EmptyString false), w') /\
     chat_log env props w' =
       (chat_log env props w ++
        [mkDoc (new_doc_id env k) "user" (JsString userMessage) (server_time env k);
         mkDoc (new_doc_id env (S k)) "model" (JsString apology) (server_time env (S k))])%list /\
     List.length (requests w') = (List.length (requests w) + 5)%nat) /\
  (store_accepts env (S k) = false ->
   exists w',
     handleSend env props st w = (Throw FirestoreError, w') /\
     chat_log env props w' =
       (chat_log env props w ++
        [mkDoc (new_doc_id env k) "user" (JsString userMessage) (server_time env k)])%list /\
     List.length (requests w') = (List.length (requests w) + 5)%nat).
Proof.
  intros userMessage request k Hinput Hloading Hdb Huser Hnet Hok1.
  destruct (addDoc_accepted "user" (JsString userMessage) w Hok1)
    as (w1 & Hadd1 & Hlog1 & Hsw1 & Hreq1).
  set (fn := apiCall env (chat_payload (messages st) userMessage)).
  assert (Hfail : forall j, Z.of_nat j < default_maxRetries -> threw (attempt env fn w1 j) = true).
  { intros j Hj. unfold fn. rewrite attempt_apiCall, apiCall_outcome_threw, Hreq1.
    apply Hnet. unfold default_maxRetries in Hj. lia. }
  assert (Hmax : 1 <= default_maxRetries) by (unfold default_maxRetries; lia).
  destruct (threw_inv _ (Hfail (Z.to_nat (default_maxRetries - 1)) ltac:(unfold default_maxRetries; lia)))
    as [e He].
  pose proof (retry_loop_exhausted env fn default_maxRetries w1 e Hmax Hfail He) as Hretry.
  set (w2 := world_after_attempt env fn w1 (Z.to_nat (default_maxRetries - 1))) in *.
  destruct (world_after_attempt_apiCall env (chat_payload (messages st) userMessage) w1
              (Z.to_nat (default_maxRetries - 1))) as [Hsame Hreq2].
  fold fn in Hsame, Hreq2. fold w2 in Hsame, Hreq2.
  pose proof (same_store_chat_log _ _ Hsame) as Hlog2.
  destruct Hsame as [_ Hsw2].
  assert (Hrun : handleSend env props st w =
                 let '(c, w3) := addDoc env props "model" (JsString apology) w2 in
                 (match c with
                  | Normal _ => Normal (mkState (messages st) EmptyString false)
                  | Throw e' => Throw e'
                  end, w3)).
  { unfold handleSend. fold userMessage. rewrite Hinput, Hloading, Hdb, Huser. simpl.
    unfold_M. rewrite Hadd1. unfold callGeminiApi. unfold_M. simpl. fold userMessage fn.
    unfold retryWithBackoff. rewrite Hretry.
    destruct (addDoc env props "model" (JsString apology) w2) as [[id|e'] w3]; reflexivity. }
  split; intros Hstore; unfold k in Hstore; rewrite <- Hsw1, <- Hsw2 in Hstore.
  - destruct (addDoc_accepted "model" (JsString apology) w2 Hstore)
      as (w3 & Hadd3 & Hlog3 & _ & Hreq3).
    exists w3. split_and!.
    + rewrite Hrun, Hadd3. reflexivity.
    + rewrite Hlog3, Hlog2, Hlog1, Hsw2, Hsw1, <- app_assoc. reflexivity.
    + rewrite Hreq3, Hreq2, Hreq1. reflexivity.
  - destruct (addDoc_rejected "model" (JsString apology) w2 Hstore)
      as (w3 & Hadd3 & Hlog3 & Hreq3).
    exists w3. split_and!.
    + rewrite Hrun, Hadd3. reflexivity.
    + rewrite Hlog3, Hlog2, Hlog1. reflexivity.
    + rewrite Hreq3, Hreq2, Hreq1. reflexivity.
Qed.

End ChatFacts.

(** ** The subscription (lines 271-289) *)

Lemma doc_leb_older (a b : Doc) : doc_leb a b = true -> older_or_same a b.
Proof. unfold doc_leb, older_or_same. lia. Qed.

Lemma doc_leb_false_older (a b : Doc) : doc_leb a b = false -> older_or_same b a.
Proof. unfold doc_leb, older_or_same. lia. Qed.

Lemma insert_doc_Permutation (d : Doc) (l : list Doc) : Permutation (insert_doc d l) (d :: l).
Proof.
  induction l as [|x l IH]; simpl; [reflexivity|].
  destruct (doc_leb d x); [reflexivity|].
  rewrite IH. apply perm_swap.
Qed.

Lemma orderBy_Permutation (l : list Doc) : Permutation (orderBy_timestamp_asc l) l.
Proof.
  induction l as [|d l IH]; simpl; [reflexivity|].
  rewrite insert_doc_Permutation. apply perm_skip, IH.
Qed.

Lemma orderBy_length (l : list Doc) : List.length (orderBy_timestamp_asc l) = List.length l.
Proof. apply Permutation_length, orderBy_Permutation. Qed.

Lemma insert_doc_sorted (d : Doc) (l : list Doc) :
  StronglySorted older_or_same l -> StronglySorted older_or_same (insert_doc d l).
Proof.
  induction l as [|x l IH]; simpl; intros Hs.
  - repeat constructor.
  - apply StronglySorted_cons in Hs as [Hx Hl].
    destruct (doc_leb d x) eqn:Hdx.
    + apply doc_leb_older in Hdx.
      apply StronglySorted_cons. split.
      * constructor; [exact Hdx|].
        eapply Forall_impl; [exact Hx|]. unfold older_or_same in *. intros; simpl in *; lia.
      * apply StronglySorted_cons. auto.
    + apply doc_leb_false_older in Hdx.
      apply StronglySorted_cons. split; [|auto].
      rewrite (insert_doc_Permutation d l). constructor; assumption.
Qed.

(** [orderBy('timestamp', 'asc')] returns every document once, oldest
    first. *)
Lemma orderBy_sorted (l : list Doc) : StronglySorted older_or_same (orderBy_timestamp_asc l).
Proof.
  induction l as [|d l IH]; simpl; [constructor | apply insert_doc_sorted, IH].
Qed.

Lemma StronglySorted_firstn {A} (R : A -> A -> Prop) (n : nat) (l : list A) :
  StronglySorted R l -> StronglySorted R (firstn n l).
Proof.
  intros Hs. rewrite <- (firstn_skipn n l) in Hs.
  exact (StronglySorted_app_1_l _ _ _ Hs).
Qed.

Lemma StronglySorted_filter {A} (R : A -> A -> Prop) (P : A -> Prop) `{!forall x, Decision (P x)}
    (l : list A) :
  StronglySorted R l -> StronglySorted R (filter P l).
Proof.
  induction 1 as [|x l Hl IH Hx]; [constructor|].
  rewrite filter_cons. destruct (decide (P x)); [|exact IH].
  constructor; [exact IH|]. apply Forall_forall. intros y Hy.
  apply list_elem_of_filter in Hy as [_ Hy].
  rewrite Forall_forall in Hx. apply Hx, Hy.
Qed.

Section SubscriptionFacts.

Import GardeningBot.

Variable env : Env.
Variable props : Props.

(** What every delivered view satisfies: its messages have text, come
    oldest first, are at most 50, and each is a document of the log,
    delivered as often as the log holds it. *)
Lemma snapshot_messages_facts (w : World) :
  let view := snapshot_messages env props w in
  Forall (fun msg => truthy (doc_text msg) = true) view /\
  StronglySorted older_or_same view /\
  (List.length view <= 50)%nat /\
  view ⊆+ chat_log env props w.
Proof.
  unfold snapshot_messages, with_text, chat_query, limit. split_and!.
  - apply Forall_forall. intros msg Hin.
    apply list_elem_of_filter in Hin as [Htext _]. exact Htext.
  - apply StronglySorted_filter, StronglySorted_firstn, orderBy_sorted.
  - etransitivity; [apply length_filter|]. apply firstn_le_length.
  - etransitivity; [apply sublist_submseteq, sublist_filter|].
    etransitivity; [apply sublist_submseteq, sublist_take|].
    rewrite orderBy_Permutation. reflexivity.
Qed.

(** While the log holds at most 50 turns, the delivered view is the one
    the specification describes. *)
Lemma snapshot_messages_small_log (w : World) :
  (List.length (chat_log env props w) <= 50)%nat ->
  snapshot_messages env props w = spec_subscription_view (chat_log env props w).
Proof.
  intros Hlen. unfold snapshot_messages, spec_subscription_view, most_recent, chat_query, limit.
  rewrite orderBy_length.
  rewrite firstn_all2 by (rewrite orderBy_length; exact Hlen).
  replace (List.length (chat_log env props w) - 50)%nat with 0%nat by lia.
  reflexivity.
Qed.

(** Past 50 turns the newest one is left out: a turn strictly more
    recent than every other turn of a log of more than 50 is not
    delivered. *)
Lemma newest_turn_not_delivered (w : World) (d : Doc) :
  (50 < List.length (chat_log env props w))%nat ->
  NoDup (chat_log env props w) ->
  (forall x, x ∈ chat_log env props w -> x <> d -> doc_timestamp x < doc_timestamp d) ->
  d ∉ snapshot_messages env props w.
Proof.
  intros Hlen Hnodup Hnewest Hin.
  unfold snapshot_messages, with_text, chat_query, limit in Hin.
  apply list_elem_of_filter in Hin as [_ Hin].
  set (ordered := orderBy_timestamp_asc (chat_log env props w)) in *.
  pose proof (orderBy_sorted (chat_log env props w)) as Hsorted. fold ordered in Hsorted.
  pose proof (orderBy_Permutation (chat_log env props w)) as Hperm. fold ordered in Hperm.
  assert (Hnodup' : NoDup ordered) by (rewrite Hperm; exact Hnodup).
  rewrite <- (firstn_skipn 50 ordered) in Hsorted, Hnodup'.
  destruct (skipn 50 ordered) as [|y rest] eqn:Hrest.
  - apply (f_equal List.length) in Hrest. rewrite length_skipn in Hrest.
    unfold ordered in Hrest. rewrite orderBy_length in Hrest. simpl in Hrest. lia.
  - assert (Hy : y ∈ y :: rest) by constructor.
    pose proof (StronglySorted_app_1_elem_of _ _ _ d y Hsorted Hin Hy) as Hle.
    apply NoDup_app in Hnodup' as (_ & Hdisj & _).
    assert (Hyd : y <> d) by (intros ->; exact (Hdisj d Hin Hy)).
    assert (Hylog : y ∈ chat_log env props w).
    { rewrite <- Hperm, <- (firstn_skipn 50 ordered), Hrest.
      apply elem_of_app. right. exact Hy. }
    specialize (Hnewest y Hylog Hyd). unfold older_or_same in Hle. lia.
Qed.
End SubscriptionFacts.

(** ** The decoder on all envelopes, and on three of them *)

(** C7. On an envelope from which no text is extracted, because the
    text of its first candidate is absent or empty, as when it has no
    candidates, decoding fails with the empty response error; when a
    text is extracted and [JSON.parse] rejects it, or the
    [health_percentage] of the parsed value is not a number, such as the
    string [high], decoding fails with a schema violation; and the body
    with [health_percentage] 72 decodes to a result whose
    [health_percentage] is 72. *)
Theorem decode_outcomes :
  (forall (JSON_parse : JsValue -> option JsValue) (result : JsValue),
     text_missing result = true ->
     exists e, EmptyResponseError e /\ PlantScanner.decode JSON_parse result = Throw e) /\
  (forall JSON_parse : JsValue -> option JsValue,
     PlantScanner.decode JSON_parse envelope_without_candidates
       = Throw (Error "API response was empty or malformed.")) /\
  (forall (JSON_parse : JsValue -> option JsValue) (result text : JsValue),
     first_candidate_text result = Normal text ->
     truthy text = true ->
     (JSON_parse text = None \/
      exists parsed, JSON_parse text = Some parsed /\
                     typeof (get_property parsed (Named "health_percentage")) <> TyNumber) ->
     exists e, SchemaViolationError e /\ PlantScanner.decode JSON_parse result = Throw e) /\
  PlantScanner.decode JSON.parse (envelope_with_text (JsString Examples.high_text))
    = Throw (Error "Invalid health percentage received.") /\
  (exists r, PlantScanner.decode JSON.parse (envelope_with_text (JsString Examples.leaf_blight_text))
               = Normal r /\
             get_property r (Named "health_percentage") = JsNumber (inject_Z 72)).
Proof.
  split_and!.
  - intros JSON_parse result Hmissing. eexists.
    split; [|exact (decode_text_missing JSON_parse result Hmissing)].
    destruct (nullish result); [left | right]; reflexivity.
  - intros JSON_parse. apply (decode_falsy_text JSON_parse _ JsUndefined); reflexivity.
  - intros JSON_parse result text Htext Htruthy [Hparse | (parsed & Hparse & Hty)].
    + exists SyntaxError. split; [left; reflexivity|].
      exact (decode_unparsable_text JSON_parse result text Htext Htruthy Hparse).
    + eexists. split; [|exact (decode_health_not_number JSON_parse result text parsed Htext Htruthy Hparse Hty)].
      destruct (nullish parsed); [right; left | right; right]; reflexivity.
  - vm_compute. reflexivity.
  - eexists. split; vm_compute; reflexivity.
Qed.

(** ** The program on concrete inputs *)

Section Runs.

Import Examples PlantScanner GardeningBot.

(** C1. Sixty turns are appended, with timestamps 0 to 59.  The
    specification has a subscriber receive the 50 most recent, turns 10
    to 59; the query of the program, ascending order limited to 50
    documents, delivers the 50 oldest, turns 0 to 49, so the ten most
    recent turns are never shown. *)
Theorem subscription_after_sixty_turns :
  chat_log quiet_env gardener (append_turns quiet_env 60 empty_world) = map turn (seq 0 60) /\
  subscribe quiet_env gardener (append_turns quiet_env 60 empty_world) = Some (map turn (seq 0 50)) /\
  spec_subscription_view (chat_log quiet_env gardener (append_turns quiet_env 60 empty_world))
    = map turn (seq 10 50) /\
  subscribe quiet_env gardener (append_turns quiet_env 60 empty_world)
    <> Some (spec_subscription_view (chat_log quiet_env gardener (append_turns quiet_env 60 empty_world))).
Proof.
  split_and!; try (vm_compute; reflexivity).
  vm_compute. discriminate.
Qed.

(** C2 fails as stated: a body whose [health_percentage] is 150.5, whose
    [predicted_disease] is empty and whose [home_remedies] is empty is
    accepted as the result of the scan. *)
Lemma scan_accepts_result_outside_data_model :
  PlantScanner.handleScan out_of_model_env JSON.parse (scanner_with leaf_png) empty_world
    = (Normal (PlantScanner.mkState (Some leaf_png) (Some out_of_model_result) false None),
       with_requests [mkRequest apiUrl (scan_payload "image/png" (JsString "iVBORw0KGgo="))] empty_world) /\
  healthPercentage_ok (get_property out_of_model_result (Named "health_percentage")) = false /\
  nonempty_string (get_property out_of_model_result (Named "predicted_disease")) = false /\
  remedies_ok (get_property out_of_model_result (Named "home_remedies")) = false /\
  AnalysisResult_invariants out_of_model_result = false.
Proof. split_and!; vm_compute; reflexivity. Qed.

(** C6 fails as stated: the call succeeds, the empty text is extracted
    without error, and no model turn is appended: after the send the log
    holds the user turn alone. *)
Lemma empty_reply_appends_no_model_turn :
  retryWithBackoff empty_text_env (apiCall empty_text_env (chat_payload [] "hello")) default_maxRetries empty_world
    = (Normal (Some (envelope_with_text (JsString EmptyString))),
       with_requests [mkRequest apiUrl (chat_payload [] "hello")] empty_world) /\
  first_candidate_text (envelope_with_text (JsString EmptyString)) = Normal (JsString EmptyString) /\
  chat_log empty_text_env gardener
    (snd (callGeminiApi empty_text_env gardener [] "hello" empty_world)) = [] /\
  fst (handleSend empty_text_env gardener (typing "hello") empty_world)
    = Normal (GardeningBot.mkState [] EmptyString false) /\
  chat_log empty_text_env gardener
    (snd (handleSend empty_text_env gardener (typing "hello") empty_world))
    = [mkDoc "doc0" "user" (JsString "hello") 0].
Proof. split_and!; vm_compute; reflexivity. Qed.

(** C5 fails as stated: every request of the inference call fails, the
    store acknowledges the write of the user turn and rejects the write
    of the apology; the send raises the error of the store, and the log
    holds the user turn alone. *)
Lemma send_raises_when_apology_is_rejected :
  (forall j request, reply_fails (network offline_env j request) = true) /\
  fst (GardeningBot.handleSend offline_env gardener (typing "  my fern is yellow ") empty_world)
    = Throw FirestoreError /\
  GardeningBot.chat_log offline_env gardener
    (snd (GardeningBot.handleSend offline_env gardener (typing "  my fern is yellow ") empty_world))
    = [mkDoc "doc0" "user" (JsString "my fern is yellow") 0] /\
  requests (snd (GardeningBot.handleSend offline_env gardener (typing "  my fern is yellow ") empty_world))
    = repeat (mkRequest apiUrl (GardeningBot.chat_payload [] "my fern is yellow")) 5.
Proof.
  split; [intros j request; reflexivity|].
  split_and!; vm_compute; reflexivity.
Qed.

End Runs.

(** ** The theorems at concrete inputs *)

Section Witnesses.

Import Examples.

(** Three attempts against a network that always fails: three
    invocations, and the error of the third comes out. *)
Lemma retry_always_failing_witness :
  invocations failing_env (apiCall failing_env ping) 3 empty_world = 3%nat /\
  exists e,
    attempt failing_env (apiCall failing_env ping) empty_world 2 = Throw e /\
    retryWithBackoff failing_env (apiCall failing_env ping) 3 empty_world =
      (Throw e, world_after_attempt failing_env (apiCall failing_env ping) empty_world 2).
Proof.
  apply (retry_always_failing failing_env (apiCall failing_env ping) 3 empty_world).
  - lia.
  - intros k Hk. destruct k as [|[|[|k]]]; [reflexivity | reflexivity | reflexivity | lia].
Defined.

(** Two failures, then an answer at attempt 2: the answer comes out
    after three invocations. *)
Lemma retry_succeeds_at_witness :
  retryWithBackoff recovering_env (apiCall recovering_env ping) 5 empty_world =
    (Normal (Some (envelope_with_text (JsString leaf_blight_text))),
     world_after_attempt recovering_env (apiCall recovering_env ping) empty_world 2) /\
  invocations recovering_env (apiCall recovering_env ping) 5 empty_world = 3%nat.
Proof.
  apply (retry_succeeds_at recovering_env (apiCall recovering_env ping) 5 empty_world 2
           (envelope_with_text (JsString leaf_blight_text))).
  - lia.
  - intros j Hj. destruct j as [|[|j]]; [reflexivity | reflexivity | lia].
  - reflexivity.
Defined.

Lemma retry_no_attempts_witness :
  retryWithBackoff leaf_blight_env (apiCall leaf_blight_env ping) 0 empty_world
    = (Normal None, empty_world) /\
  invocations leaf_blight_env (apiCall leaf_blight_env ping) 0 empty_world = 0%nat.
Proof.
  apply (retry_no_attempts leaf_blight_env (apiCall leaf_blight_env ping) 0 empty_world). lia.
Defined.

(** The pause after the failure of attempt 3 of 5, with a draw of one
    half: 8000 + 500 milliseconds. *)
Lemma scan_unreadable_image_witness :
  PlantScanner.handleScan leaf_blight_env JSON.parse (scanner_with unreadable_file) empty_world =
    (Normal (PlantScanner.mkState (Some unreadable_file) None false
               (Some PlantScanner.analysis_failed_message)), empty_world) /\
  requests (snd (PlantScanner.handleScan leaf_blight_env JSON.parse (scanner_with unreadable_file) empty_world))
    = [].
Proof.
  destruct (scan_unreadable_image leaf_blight_env JSON.parse (scanner_with unreadable_file)
              unreadable_file empty_world) as (_ & Hrun & Hreq & _).
  - reflexivity.
  - reflexivity.
  - split; [exact Hrun | exact Hreq].
Defined.

Lemma send_absorbs_inference_failure_witness :
  (exists w',
     GardeningBot.handleSend quiet_env gardener (typing padded_question) empty_world =
       (Normal (GardeningBot.mkState [] EmptyString false), w') /\
     GardeningBot.chat_log quiet_env gardener w' =
       [mkDoc "doc0" "user" (JsString "my fern is yellow") 0;
        mkDoc "doc1" "model" (JsString GardeningBot.apology) 1] /\
     List.length (requests w') = 5%nat) /\
  (exists w',
     GardeningBot.handleSend offline_env gardener (typing padded_question) empty_world =
       (Throw FirestoreError, w') /\
     GardeningBot.chat_log offline_env gardener w' =
       [mkDoc "doc0" "user" (JsString "my fern is yellow") 0] /\
     List.length (requests w') = 5%nat).
Proof.
  split.
  - apply (proj1 (send_absorbs_inference_failure quiet_env gardener (typing padded_question) empty_world
                    eq_refl eq_refl eq_refl eq_refl (fun j _ => eq_refl) eq_refl)).
    reflexivity.
  - apply (proj2 (send_absorbs_inference_failure offline_env gardener (typing padded_question) empty_world
                    eq_refl eq_refl eq_refl eq_refl (fun j _ => eq_refl) eq_refl)).
    reflexivity.
Defined.

Lemma reply_appended_when_nonempty_witness :
  exists w2,
    GardeningBot.callGeminiApi advice_env gardener [] "hello" empty_world = (Normal (), w2) /\
    GardeningBot.chat_log advice_env gardener w2 =
      [mkDoc "doc0" "model" (JsString "Water it less.") 0].
Proof.
  apply (proj1 (reply_appended_when_nonempty advice_env gardener [] "hello" empty_world
                  (with_requests [mkRequest apiUrl (GardeningBot.chat_payload [] "hello")] empty_world)
                  (envelope_with_text (JsString "Water it less."))
                  (JsString "Water it less.")
                  ltac:(vm_compute; reflexivity) eq_refl)).
  - reflexivity.
  - reflexivity.
Defined.

Lemma decode_outcomes_witness :
  (exists e, EmptyResponseError e /\
             PlantScanner.decode JSON.parse (envelope_with_text (JsString EmptyString)) = Throw e) /\
  (exists e, SchemaViolationError e /\
             PlantScanner.decode JSON.parse (envelope_with_text (JsString "not json")) = Throw e).
Proof.
  destruct decode_outcomes as (Hempty & _ & Hschema & _).
  split.
  - apply (Hempty JSON.parse (envelope_with_text (JsString EmptyString))). reflexivity.
  - apply (Hschema JSON.parse _ (JsString "not json")); [reflexivity | reflexivity | left; reflexivity].
Defined.

End Witnesses.

(** * Further properties of the program *)

(** ** [retryWithBackoff], for every operation *)

Section RetryMore.

Context {A : Type}.
Variable env : Env.
Variable fn : M A.

(** What the loop returns from index [k] on tells what the attempts did:
    a value is the value of the first attempt that did not throw, an
    error is the error of attempt [maxRetries - 1] after all attempts
    threw, and nothing is returned only when no attempt was allowed. *)
Lemma retry_loop_inv (maxRetries : Z) (w : World) (n k : nat)
    (c : Completion (option A)) (w' : World) (m : nat) :
  n = Z.to_nat (maxRetries - Z.of_nat k) ->
  (k = 0%nat \/ Z.of_nat k < maxRetries) ->
  (forall j, (j < k)%nat -> threw (attempt env fn w j) = true) ->
  retry_loop env fn maxRetries (Z.of_nat k) (attempt_world env fn w k) k = (c, w', m) ->
  match c with
  | Normal (Some v) =>
      exists i, Z.of_nat i < maxRetries /\
                (forall j, (j < i)%nat -> threw (attempt env fn w j) = true) /\
                attempt env fn w i = Normal v /\
                w' = world_after_attempt env fn w i /\ m = S i
  | Throw e =>
      1 <= maxRetries /\
      (forall j, Z.of_nat j < maxRetries -> threw (attempt env fn w j) = true) /\
      attempt env fn w (Z.to_nat (maxRetries - 1)) = Throw e /\
      w' = world_after_attempt env fn w (Z.to_nat (maxRetries - 1)) /\
      m = Z.to_nat maxRetries
  | Normal None => maxRetries <= 0 /\ w' = w /\ m = 0%nat
  end.
Proof.
  revert k. induction n as [|n IH]; intros k Hn Hk Hfail Hrun;
    rewrite retry_loop_body in Hrun;
    destruct (Z_lt_dec (Z.of_nat k) maxRetries) as [Hlt|Hge]; try lia;
    try (injection Hrun as <- <- <-; destruct Hk as [-> | Hk]; [|lia];
         simpl in *; split_and!; [lia | reflexivity | reflexivity]).
  destruct (fn (attempt_world env fn w k)) as [[v|e] w1] eqn:Hfn.
  - injection Hrun as <- <- <-. exists k. split_and!; auto.
    + unfold attempt. rewrite Hfn. reflexivity.
    + unfold world_after_attempt. rewrite Hfn. reflexivity.
  - assert (Hthrew : threw (attempt env fn w k) = true)
      by (unfold attempt; rewrite Hfn; reflexivity).
    destruct (Z.eq_dec (Z.of_nat k) (maxRetries - 1)) as [Hlast|Hmore].
    + injection Hrun as <- <- <-.
      replace (Z.to_nat (maxRetries - 1)) with k by lia.
      split_and!; try lia.
      * intros j Hj. destruct (decide (j = k)) as [->|]; [exact Hthrew | apply Hfail; lia].
      * unfold attempt. rewrite Hfn. reflexivity.
      * unfold world_after_attempt. rewrite Hfn. reflexivity.
    + replace (Z.of_nat k + 1) with (Z.of_nat (S k)) in Hrun by lia.
      replace (after_backoff env (Z.of_nat k) w1) with (attempt_world env fn w (S k)) in Hrun
        by (simpl; rewrite Hfn; reflexivity).
      apply (IH (S k)); [lia | right; lia | | exact Hrun].
      intros j Hj. destruct (decide (j = k)) as [->|]; [exact Hthrew | apply Hfail; lia].
Qed.

(** X1. Whatever the operation does, [retryWithBackoff] invokes it at
    most [maxRetries] times, and not at all when [maxRetries] is zero or
    negative. *)
Theorem retry_invocations_bounded (maxRetries : Z) (w : World) :
  (invocations env fn maxRetries w <= Z.to_nat maxRetries)%nat.
Proof.
  unfold invocations.
  pose proof (retry_loop_attempts_bound env fn maxRetries 0 w 0) as H.
  replace (maxRetries - 0) with maxRetries in H by lia. exact H.
Qed.

(** X2. With [maxRetries >= 1], as with the default of 5, the function
    never falls off its end: it returns a value of the operation or
    throws, so its callers never see [undefined] in place of a
    response. *)
Theorem retry_never_undefined (maxRetries : Z) (w : World) :
  1 <= maxRetries ->
  fst (retryWithBackoff env fn maxRetries w) <> Normal None.
Proof.
  intros Hmax Hnone. unfold retryWithBackoff in Hnone.
  destruct (retry_loop env fn maxRetries 0 w 0) as [[c w'] m] eqn:Hrun.
  simpl in Hnone. subst c.
  apply (retry_loop_inv maxRetries w (Z.to_nat maxRetries) 0) in Hrun;
    [| simpl; lia | left; reflexivity | intros j Hj; lia].
  lia.
Qed.

(** X3. The result of [retryWithBackoff] tells what happened: a returned
    value is the value of the first attempt that did not throw, after
    which no further attempt was made; a thrown error is the error of
    attempt [maxRetries - 1], every attempt having thrown; [undefined]
    is returned only when [maxRetries <= 0]. *)
Theorem retry_outcome_inversion (maxRetries : Z) (w w' : World) (c : Completion (option A)) :
  retryWithBackoff env fn maxRetries w = (c, w') ->
  match c with
  | Normal (Some v) =>
      exists i, Z.of_nat i < maxRetries /\
                (forall j, (j < i)%nat -> threw (attempt env fn w j) = true) /\
                attempt env fn w i = Normal v /\
                w' = world_after_attempt env fn w i /\
                invocations env fn maxRetries w = S i
  | Throw e =>
      1 <= maxRetries /\
      (forall j, Z.of_nat j < maxRetries -> threw (attempt env fn w j) = true) /\
      attempt env fn w (Z.to_nat (maxRetries - 1)) = Throw e /\
      w' = world_after_attempt env fn w (Z.to_nat (maxRetries - 1)) /\
      invocations env fn maxRetries w = Z.to_nat maxRetries
  | Normal None => maxRetries <= 0 /\ w' = w /\ invocations env fn maxRetries w = 0%nat
  end.
Proof.
  unfold retryWithBackoff, invocations. intros Hret.
  destruct (retry_loop env fn maxRetries 0 w 0) as [[c0 w0] m] eqn:Hrun.
  injection Hret as <- <-. simpl.
  exact (retry_loop_inv maxRetries w (Z.to_nat maxRetries) 0 c0 w0 m
           ltac:(simpl; lia) (or_introl eq_refl) ltac:(intros j Hj; lia) Hrun).
Qed.

End RetryMore.

(** ** The inference call under retry: requests and pauses *)

Lemma total_delay_app (l : list Q) (x : Q) :
  (total_delay (l ++ [x]) == total_delay l + x)%Q.
Proof.
  induction l as [|y l IH]; simpl; [ring|]. rewrite IH. ring.
Qed.

Lemma backoff_pauses_S (env : Env) (d k : nat) :
  backoff_pauses env d (S k) =
    (backoff_pauses env d k ++ [backoff_delay (Z.of_nat k) (Math_random env (d + k))])%list.
Proof. unfold backoff_pauses. rewrite seq_S, map_app. reflexivity. Qed.

Lemma backoff_pauses_length (env : Env) (d k : nat) : List.length (backoff_pauses env d k) = k.
Proof. unfold backoff_pauses. rewrite length_map, length_seq. reflexivity. Qed.

(** [k] pauses in a row last [(2^k - 1) * 1000] milliseconds plus their
    jitters. *)
Lemma total_delay_backoff_pauses (env : Env) (d k : nat) :
  (forall j, (0 <= Math_random env j)%Q /\ (Math_random env j < 1)%Q) ->
  (inject_Z ((2 ^ Z.of_nat k - 1) * 1000) <= total_delay (backoff_pauses env d k))%Q /\
  (total_delay (backoff_pauses env d k)
     <= inject_Z ((2 ^ Z.of_nat k - 1) * 1000) + inject_Z (Z.of_nat k * 1000))%Q.
Proof.
  intros Hrnd. induction k as [|k (Hlo & Hhi)].
  - simpl. split; discriminate.
  - rewrite backoff_pauses_S, total_delay_app.
    destruct (Hrnd (d + k)%nat) as [H0 H1].
    destruct (jitter_range _ H0 H1) as [Hj0 Hj1].
    unfold backoff_delay. fold (backoff_floor (Z.of_nat k)).
    rewrite (backoff_floor_value (Z.of_nat k)) by lia.
    replace ((2 ^ Z.of_nat (S k) - 1) * 1000)
      with ((2 ^ Z.of_nat k - 1) * 1000 + 2 ^ Z.of_nat k * 1000)
      by (rewrite Nat2Z.inj_succ, Z.pow_succ_r by lia; lia).
    replace (Z.of_nat (S k) * 1000) with (Z.of_nat k * 1000 + 1000) by lia.
    rewrite !inject_Z_plus.
    change (inject_Z 1000) with 1000%Q.
    split; lra.
Qed.

(** ** The schedule of the pauses *)


Section BackoffSchedule.

Context {A : Type}.
Variable env : Env.
Variable fn : M A.





End BackoffSchedule.


Section ApiCallAccounting.

Variable env : Env.
Variable payload : JsValue.

(** The world in which attempt [k] of the call starts: [k] requests
    sent, [k] pauses taken, [k] draws made. *)
Lemma attempt_world_apiCall_trace (w : World) (k : nat) :
  let aw := attempt_world env (apiCall env payload) w k in
  requests aw = (requests w ++ repeat (mkRequest apiUrl payload) k)%list /\
  timeouts aw = (timeouts w ++ backoff_pauses env (random_draws w) k)%list /\
  random_draws aw = (random_draws w + k)%nat.
Proof.
  induction k as [|k (Hreq & Hto & Hrd)]; simpl.
  - rewrite !app_nil_r. split_and!; [reflexivity | reflexivity | lia].
  - rewrite apiCall_run. simpl. rewrite Hreq, Hto, Hrd.
    split_and!.
    + simpl repeat. rewrite repeat_cons, app_assoc. reflexivity.
    + rewrite backoff_pauses_S, app_assoc. reflexivity.
    + lia.
Qed.

Lemma world_after_attempt_apiCall_trace (w : World) (k : nat) :
  let w' := world_after_attempt env (apiCall env payload) w k in
  requests w' = (requests w ++ repeat (mkRequest apiUrl payload) (S k))%list /\
  timeouts w' = (timeouts w ++ backoff_pauses env (random_draws w) k)%list /\
  random_draws w' = (random_draws w + k)%nat.
Proof.
  unfold world_after_attempt. rewrite apiCall_run. simpl.
  destruct (attempt_world_apiCall_trace w k) as (Hreq & Hto & Hrd).
  rewrite Hreq, Hto, Hrd. split_and!; try reflexivity.
  simpl repeat. rewrite repeat_cons, app_assoc. reflexivity.
Qed.

(** The trace of the retried call, read off the result of the loop. *)
Lemma retry_loop_apiCall_trace (maxRetries : Z) (w w' : World)
    (c : Completion (option JsValue)) (n : nat) :
  retry_loop env (apiCall env payload) maxRetries 0 w 0 = (c, w', n) ->
  (n <= Z.to_nat maxRetries)%nat /\
  (1 <= maxRetries -> (1 <= n)%nat) /\
  requests w' = (requests w ++ repeat (mkRequest apiUrl payload) n)%list /\
  timeouts w' = (timeouts w ++ backoff_pauses env (random_draws w) (n - 1))%list /\
  random_draws w' = (random_draws w + (n - 1))%nat /\
  same_store w w'.
Proof.
  intros Hrun.
  pose proof (retry_loop_attempts_bound env (apiCall env payload) maxRetries 0 w 0) as Hbound.
  replace (maxRetries - 0) with maxRetries in Hbound by lia.
  pose proof (retry_apiCall_same_store env payload maxRetries 0 w 0) as Hsame.
  rewrite Hrun in Hbound, Hsame. simpl in Hbound, Hsame.
  apply (retry_loop_inv env (apiCall env payload) maxRetries w (Z.to_nat maxRetries) 0) in Hrun;
    [| simpl; lia | left; reflexivity | intros j Hj; lia].
  split; [exact Hbound|].
  destruct c as [[v|]|e].
  - destruct Hrun as (i & _ & _ & _ & -> & ->).
    destruct (world_after_attempt_apiCall_trace w i) as (Hreq & Hto & Hrd).
    replace (S i - 1)%nat with i by lia. split_and!; try assumption. lia.
  - destruct Hrun as (Hmax & -> & ->). simpl. rewrite !app_nil_r.
    split_and!; try reflexivity; try lia. split; reflexivity.
  - destruct Hrun as (Hmax & _ & _ & -> & ->).
    destruct (world_after_attempt_apiCall_trace w (Z.to_nat (maxRetries - 1))) as (Hreq & Hto & Hrd).
    replace (Z.to_nat maxRetries) with (S (Z.to_nat (maxRetries - 1))) by lia.
    replace (S (Z.to_nat (maxRetries - 1)) - 1)%nat with (Z.to_nat (maxRetries - 1)) by lia.
    split_and!; try assumption. lia.
Qed.

(** X4. However the retried call ends after [n] invocations, it has sent
    exactly [n] identical requests and paused exactly [n - 1] times,
    once between two consecutive attempts and never before the first or
    after the last, and it has not touched the store. *)
Theorem retry_apiCall_trace (maxRetries : Z) (w : World) :
  let n := invocations env (apiCall env payload) maxRetries w in
  let w' := snd (retryWithBackoff env (apiCall env payload) maxRetries w) in
  (n <= Z.to_nat maxRetries)%nat /\
  requests w' = (requests w ++ repeat (mkRequest apiUrl payload) n)%list /\
  timeouts w' = (timeouts w ++ backoff_pauses env (random_draws w) (n - 1))%list /\
  random_draws w' = (random_draws w + (n - 1))%nat /\
  same_store w w'.
Proof.
  intros n w'. unfold n, w', invocations, retryWithBackoff.
  destruct (retry_loop env (apiCall env payload) maxRetries 0 w 0) as [[c w1] m] eqn:Hrun.
  destruct (retry_loop_apiCall_trace maxRetries w w1 c m Hrun) as (H1 & _ & H2 & H3 & H4 & H5).
  simpl. auto.
Qed.

(** X5. When the retried call gives up, it has paused
    [maxRetries - 1] times, for at least [2^(maxRetries-1) - 1] seconds
    and at most [maxRetries - 1] seconds more: between 15 and 19 seconds
    for the default of five attempts. *)
Theorem retry_apiCall_total_backoff (maxRetries : Z) (w w' : World) (e : JsError) :
  (forall j, (0 <= Math_random env j)%Q /\ (Math_random env j < 1)%Q) ->
  retryWithBackoff env (apiCall env payload) maxRetries w = (Throw e, w') ->
  let k := Z.to_nat (maxRetries - 1) in
  exists pauses,
    timeouts w' = (timeouts w ++ pauses)%list /\
    pauses = backoff_pauses env (random_draws w) k /\
    List.length pauses = k /\
    (inject_Z ((2 ^ Z.of_nat k - 1) * 1000) <= total_delay pauses)%Q /\
    (total_delay pauses <= inject_Z ((2 ^ Z.of_nat k - 1) * 1000) + inject_Z (Z.of_nat k * 1000))%Q /\
    (maxRetries = 5 -> (15000 <= total_delay pauses)%Q /\ (total_delay pauses <= 19000)%Q).
Proof.
  intros Hrnd Hret k. unfold retryWithBackoff in Hret.
  destruct (retry_loop env (apiCall env payload) maxRetries 0 w 0) as [[c w1] m] eqn:Hrun.
  injection Hret as -> ->.
  apply (retry_loop_inv env (apiCall env payload) maxRetries w (Z.to_nat maxRetries) 0) in Hrun;
    [| simpl; lia | left; reflexivity | intros j Hj; lia].
  destruct Hrun as (Hmax & _ & _ & -> & _). fold k.
  destruct (world_after_attempt_apiCall_trace w k) as (_ & Hto & _).
  destruct (total_delay_backoff_pauses env (random_draws w) k Hrnd) as (Hlo & Hhi).
  exists (backoff_pauses env (random_draws w) k).
  split_and!; [exact Hto | reflexivity | apply backoff_pauses_length | exact Hlo | exact Hhi |].
  intros H5. assert (Hk : k = 4%nat) by (unfold k; lia).
  rewrite Hk in *.
  change (inject_Z ((2 ^ Z.of_nat 4 - 1) * 1000)) with 15000%Q in *.
  change (inject_Z (Z.of_nat 4 * 1000)) with 4000%Q in *.
  split; lra.
Qed.

End ApiCallAccounting.

(** ** Attempts until the first success *)

Section FirstSuccess.

Context {A : Type}.
Variable env : Env.
Variable fn : M A.

Lemma retry_loop_first_success (maxRetries : Z) (w : World) (k : nat) (v : A) :
  Z.of_nat k < maxRetries ->
  (forall j, (j < k)%nat -> threw (attempt env fn w j) = true) ->
  attempt env fn w k = Normal v ->
  retry_loop env fn maxRetries 0 w 0 = (Normal (Some v), world_after_attempt env fn w k, S k).
Proof.
  intros Hk Hfail Hv.
  rewrite (retry_loop_skip env fn maxRetries w k Hk Hfail), retry_loop_body.
  destruct (Z_lt_dec (Z.of_nat k) maxRetries); [|lia].
  unfold attempt in Hv. unfold world_after_attempt.
  destruct (fn (attempt_world env fn w k)) as [c w1]. simpl in Hv. subst c. reflexivity.
Qed.

End FirstSuccess.

(** ** [fileToBase64] *)

Lemma split_comma_no_comma (s : string) : has_comma s = false -> split_comma s = [s].
Proof.
  induction s as [|c s IH]; simpl; [reflexivity|].
  intros H. apply orb_false_iff in H as [Hc Hs]. rewrite Hc, (IH Hs). reflexivity.
Qed.

Lemma split_comma_header (header rest : string) :
  has_comma header = false ->
  split_comma (header ++ String "," rest) = header :: split_comma rest.
Proof.
  induction header as [|c h IH]; simpl; [reflexivity|].
  intros H. apply orb_false_iff in H as [Hc Hh]. rewrite Hc, (IH Hh). reflexivity.
Qed.

(** X6. [fileToBase64] resolves with exactly the part of the data URL
    after its first comma, the base64 data of [data:<type>;base64,<data>],
    and with [undefined] when the URL has no comma; it rejects with the
    reader's error when the file cannot be read; it has no other
    effect. *)
Theorem fileToBase64_data_url (f : File) (w : World) :
  (forall header data,
     file_dataURL f = Some (header ++ String "," data) ->
     has_comma header = false -> has_comma data = false ->
     fileToBase64 f w = (Normal (JsString data), w)) /\
  (forall url,
     file_dataURL f = Some url -> has_comma url = false ->
     fileToBase64 f w = (Normal JsUndefined, w)) /\
  (file_dataURL f = None -> fileToBase64 f w = (Throw FileReaderError, w)).
Proof.
  unfold fileToBase64. split_and!.
  - intros header data -> Hh Hd.
    rewrite (split_comma_header header data Hh), (split_comma_no_comma data Hd). reflexivity.
  - intros url -> Hu. rewrite (split_comma_no_comma url Hu). reflexivity.
  - intros ->. reflexivity.
Qed.

(** ** [handleScan], for every network *)

Section ScanMore.

Import PlantScanner.

Variable env : Env.
Variable JSON_parse : JsValue -> option JsValue.

(** A scan of a readable file is the retried call followed by the
    decoding of what it returned. *)
Lemma scan_readable (f : File) (url : string) (w : World) :
  file_dataURL f = Some url ->
  scan env JSON_parse f w =
    let '(c, w', _) := retry_loop env (apiCall env (req_payload (scan_request f url)))
                         default_maxRetries 0 w 0 in
    match c with
    | Normal result => (decode JSON_parse (value_or_undefined result), w')
    | Throw e => (Throw e, w')
    end.
Proof.
  intros Hurl. unfold scan, fileToBase64, retryWithBackoff, scan_request, base64_of.
  rewrite Hurl. unfold_M. simpl.
  destruct (retry_loop _ _ _ _ _ _) as [[[result|e] w'] n]; reflexivity.
Qed.

Lemma handleScan_scanned (st : State) (f : File) (w : World) :
  file st = Some f ->
  handleScan env JSON_parse st w =
    (Normal (scanned f (fst (scan env JSON_parse f w))), snd (scan env JSON_parse f w)).
Proof.
  intros Hf. destruct (scan env JSON_parse f w) as [[r|e] w'] eqn:Hscan.
  - exact (handleScan_success env JSON_parse st f w w' r Hf Hscan).
  - exact (handleScan_failure env JSON_parse st f w w' e Hf Hscan).
Qed.

(** X7. [handleScan] never throws and never leaves the spinner on: with
    no file selected it changes nothing; with a file it ends with
    [loading] false, the file kept, and either a result and no error
    message or no result and the one generic message. *)
Theorem handleScan_final_state (st : State) (w : World) :
  exists st' w',
    handleScan env JSON_parse st w = (Normal st', w') /\
    file st' = file st /\
    (file st = None -> st' = st /\ w' = w) /\
    (file st <> None ->
     loading st' = false /\
     ((exists r, scanResult st' = Some r /\ error st' = None) \/
      (scanResult st' = None /\ error st' = Some analysis_failed_message))).
Proof.
  destruct (file st) as [f|] eqn:Hf.
  - rewrite (handleScan_scanned st f w Hf).
    eexists _, _. split; [reflexivity|].
    destruct (fst (scan env JSON_parse f w)) as [r|e]; simpl;
      (split_and!; [reflexivity | discriminate | intros _; split; [reflexivity|]]);
      [left; eauto | right; auto].
  - exists st, w. unfold handleScan. rewrite Hf. unfold_M.
    split_and!; auto. intros H. congruence.
Qed.

(** X8. A scan of a readable file sends between one and five requests,
    all of them the same POST of the payload built from the file, pauses
    once between two consecutive requests, and never writes to the
    store. *)
Theorem handleScan_requests (st : State) (f : File) (url : string) (w : World) :
  file st = Some f ->
  file_dataURL f = Some url ->
  let w' := snd (handleScan env JSON_parse st w) in
  exists n,
    (1 <= n <= 5)%nat /\
    requests w' = (requests w ++ repeat (scan_request f url) n)%list /\
    timeouts w' = (timeouts w ++ backoff_pauses env (random_draws w) (n - 1))%list /\
    same_store w w'.
Proof.
  intros Hf Hurl w'. unfold w'.
  rewrite (handleScan_scanned st f w Hf). simpl.
  rewrite (scan_readable f url w Hurl).
  destruct (retry_loop env (apiCall env (req_payload (scan_request f url))) default_maxRetries 0 w 0)
    as [[c w1] n] eqn:Hrun.
  destruct (retry_loop_apiCall_trace env _ default_maxRetries w w1 c n Hrun)
    as (Hle & Hge & Hreq & Hto & _ & Hsame).
  exists n.
  assert (Hw1 : snd (match c with
                     | Normal result => (decode JSON_parse (value_or_undefined result), w1)
                     | Throw e => (Throw e, w1)
                     end) = w1) by (destruct c; reflexivity).
  rewrite Hw1. unfold default_maxRetries in Hle, Hge.
  split_and!; try assumption; lia.
Qed.

(** X9. The first reply with a 2xx status and a JSON body ends the scan,
    whatever the decoder makes of it: after [k < 5] failed requests the
    state shows the decoded result, or the generic message when the body
    is rejected, and no further request is sent; a rejected body is not
    retried. *)
Theorem handleScan_first_answer_is_final
    (st : State) (f : File) (url : string) (w : World) (k : nat) (status : Z) (envelope : JsValue) :
  file st = Some f ->
  file_dataURL f = Some url ->
  (k < 5)%nat ->
  (forall j, (j < k)%nat ->
     reply_fails (network env (List.length (requests w) + j) (scan_request f url)) = true) ->
  network env (List.length (requests w) + k) (scan_request f url) = HttpResponse status (Some envelope) ->
  response_ok status = true ->
  exists w',
    handleScan env JSON_parse st w = (Normal (scanned f (decode JSON_parse envelope)), w') /\
    requests w' = (requests w ++ repeat (scan_request f url) (S k))%list.
Proof.
  intros Hf Hurl Hk Hfail Hreply Hok.
  set (payload := req_payload (scan_request f url)).
  assert (Hrun : retry_loop env (apiCall env payload) default_maxRetries 0 w 0 =
                 (Normal (Some envelope), world_after_attempt env (apiCall env payload) w k, S k)).
  { apply retry_loop_first_success.
    - unfold default_maxRetries. lia.
    - intros j Hj. rewrite attempt_apiCall, apiCall_outcome_threw. exact (Hfail j Hj).
    - rewrite attempt_apiCall.
      change (mkRequest apiUrl payload) with (scan_request f url).
      rewrite Hreply. simpl. rewrite Hok. reflexivity. }
  exists (world_after_attempt env (apiCall env payload) w k). split.
  - rewrite (handleScan_scanned st f w Hf), (scan_readable f url w Hurl).
    fold payload. rewrite Hrun. reflexivity.
  - destruct (world_after_attempt_apiCall_trace env payload w k) as (Hreq & _). exact Hreq.
Qed.

End ScanMore.

(** ** The result of a scan *)

Section ScanResult.

Import PlantScanner.

Variable env : Env.
Variable JSON_parse : JsValue -> option JsValue.

(** [apiCall] returns only the JSON body of a reply with a 2xx status. *)
Lemma apiCall_outcome_normal_inv (reply : FetchReply) (v : JsValue) :
  apiCall_outcome reply = Normal v ->
  exists status, reply = HttpResponse status (Some v) /\ response_ok status = true.
Proof.
  destruct reply as [|status [body|]]; simpl; [discriminate | |];
    destruct (response_ok status) eqn:Hok; simpl; try discriminate.
  intros H. injection H as ->. exists status. split; [reflexivity | exact Hok].
Qed.

(** C2, as the code has it. A scan that ends with a result has read the
    file, has seen every request before the last one fail, and ends with
    the value [JSON.parse] made of the non-empty text of the first
    candidate of the body of the last reply, a reply with a 2xx status;
    the [health_percentage] of that value is a number.  Its range, its
    being an integer, [predicted_disease] and [home_remedies] are not
    checked. *)
Theorem scan_result_health_is_number (st st' : State) (f : File) (w w' : World) (r : JsValue) :
  file st = Some f ->
  handleScan env JSON_parse st w = (Normal st', w') ->
  scanResult st' = Some r ->
  typeof (get_property r (Named "health_percentage")) = TyNumber /\
  exists url i status envelope text,
    file_dataURL f = Some url /\
    (i < 5)%nat /\
    (forall j, (j < i)%nat ->
       reply_fails (network env (List.length (requests w) + j) (scan_request f url)) = true) /\
    network env (List.length (requests w) + i) (scan_request f url)
      = HttpResponse status (Some envelope) /\
    response_ok status = true /\
    first_candidate_text envelope = Normal text /\
    truthy text = true /\
    JSON_parse text = Some r /\
    requests w' = (requests w ++ repeat (scan_request f url) (S i))%list.
Proof.
  intros Hf Hrun Hres.
  rewrite (handleScan_scanned env JSON_parse st f w Hf) in Hrun.
  injection Hrun as <- <-.
  destruct (file_dataURL f) as [url|] eqn:Hurl;
    [|rewrite (scan_unreadable env JSON_parse f w Hurl) in Hres; discriminate].
  rewrite (scan_readable env JSON_parse f url w Hurl) in *.
  set (payload := req_payload (scan_request f url)) in *.
  destruct (retry_loop env (apiCall env payload) default_maxRetries 0 w 0)
    as [[c w1] n] eqn:Hloop.
  pose proof (retry_loop_inv env (apiCall env payload) default_maxRetries w
                (Z.to_nat (default_maxRetries - Z.of_nat 0)) 0 c w1 n
                eq_refl (or_introl eq_refl) ltac:(intros j Hj; lia) Hloop) as Hinv.
  destruct c as [[envelope|]|e]; simpl in Hres;
    [| destruct Hinv as [Hmax _]; unfold default_maxRetries in Hmax; lia | discriminate].
  destruct Hinv as (i & Hi & Hfail & Hlast & Hw1 & _).
  destruct (decode JSON_parse envelope) as [r0|e] eqn:Hdec; simpl in Hres; [|discriminate].
  injection Hres as ->.
  destruct (decode_normal_inv JSON_parse envelope r Hdec) as (text & Htext & Htruthy & Hparse & Hty).
  rewrite attempt_apiCall in Hlast.
  destruct (apiCall_outcome_normal_inv _ _ Hlast) as (status & Hreply & Hok).
  split; [exact Hty|].
  exists url, i, status, envelope, text. split_and!; auto.
  - unfold default_maxRetries in Hi. lia.
  - intros j Hj. specialize (Hfail j Hj).
    rewrite attempt_apiCall, apiCall_outcome_threw in Hfail. exact Hfail.
  - simpl. rewrite Hw1.
    destruct (world_after_attempt_apiCall_trace env payload w i) as (Hreq & _). exact Hreq.
Qed.

End ScanResult.

(** ** What the scanner renders *)

Section RenderFacts.

Import PlantScanner.

Variable env : Env.
Variable JSON_parse : JsValue -> option JsValue.

(** Only an object has a [health_percentage] that is a number. *)
Lemma numeric_health_object (r : JsValue) :
  typeof (get_property r (Named "health_percentage")) = TyNumber ->
  exists fields, r = JsObject fields.
Proof.
  destruct r as [| | b | q | s | items | fields]; simpl; try discriminate; eauto.
Qed.

Lemma nonempty_string_inv (v : JsValue) :
  nonempty_string v = true -> exists s, v = JsString s.
Proof. destruct v; try discriminate. eauto. Qed.

Lemma remedies_ok_inv (v : JsValue) :
  remedies_ok v = true -> exists l, v = JsArray l /\ (3 <= List.length l <= 5)%nat.
Proof.
  destruct v as [| | b | q | s | l | o]; try discriminate.
  unfold remedies_ok. intros H.
  apply andb_true_iff in H as [H _]. apply andb_true_iff in H as [H3 H5].
  apply Nat.leb_le in H3, H5. eauto.
Qed.

(** X10. Passing the check of [handleScan] does not make a result safe
    to render.  For a decoded result, line 163 evaluates without a
    [TypeError] exactly when [predicted_disease] is a string, and the
    list of line 244 exactly when [home_remedies] is an array; both do
    for a result that meets the invariants of the data model, with three
    to five list items. *)
Theorem render_after_decode (result r : JsValue) :
  decode JSON_parse result = Normal r ->
  ((exists b, isDiseased (Some r) = Value b) <->
   (exists s, get_property r (Named "predicted_disease") = JsString s)) /\
  ((exists items, remedy_items r = Value items) <->
   (exists l, get_property r (Named "home_remedies") = JsArray l)) /\
  (AnalysisResult_invariants r = true ->
   exists b items,
     isDiseased (Some r) = Value b /\ remedy_items r = Value items /\
     (3 <= List.length items <= 5)%nat).
Proof.
  intros Hdec.
  destruct (decode_normal_inv JSON_parse result r Hdec) as (_ & _ & _ & _ & Hty).
  destruct (numeric_health_object r Hty) as [fields ->].
  unfold isDiseased, remedy_items, AnalysisResult_invariants.
  change (truthy (JsObject fields)) with true. cbv iota. simpl negb. cbv iota.
  split_and!.
  - destruct (get_property (JsObject fields) (Named "predicted_disease"));
      split; intros [x Hx]; try discriminate; eauto.
  - destruct (get_property (JsObject fields) (Named "home_remedies"));
      split; intros [x Hx]; try discriminate; eauto.
  - intros Hinv.
    apply andb_true_iff in Hinv as [Hinv Hrem]. apply andb_true_iff in Hinv as [_ Hdis].
    destruct (nonempty_string_inv _ Hdis) as [s ->].
    destruct (remedies_ok_inv _ Hrem) as (l & -> & Hlen).
    eexists _, _. split_and!; try reflexivity; rewrite length_combine, length_seq; lia.
Qed.

(** X11. The badge is green from 80 up, yellow from 60 up to but not
    including 80, and red below 60; so a healthier plant never gets a
    worse badge. *)
Theorem getHealthColor_monotone (h1 h2 : Q) :
  ((80 <= h1)%Q -> getHealthColor h1 = "text-green-600 bg-green-100 border-green-300") /\
  ((60 <= h1)%Q -> (h1 < 80)%Q ->
   getHealthColor h1 = "text-yellow-600 bg-yellow-100 border-yellow-300") /\
  ((h1 < 60)%Q -> getHealthColor h1 = "text-red-600 bg-red-100 border-red-300") /\
  ((h1 <= h2)%Q -> (color_rank (getHealthColor h1) <= color_rank (getHealthColor h2))%nat).
Proof.
  unfold getHealthColor.
  destruct (Qle_bool 80 h1) eqn:H80a; destruct (Qle_bool 80 h2) eqn:H80b;
    destruct (Qle_bool 60 h1) eqn:H60a; destruct (Qle_bool 60 h2) eqn:H60b.
  all: repeat match goal with
       | H : Qle_bool _ _ = true |- _ => apply Qle_bool_iff in H
       | H : Qle_bool _ _ = false |- _ =>
           apply not_true_iff_false in H; rewrite Qle_bool_iff in H
       end.
  all: split_and!; intros; try reflexivity; try (exfalso; lra); try (vm_compute; lia).
Qed.

Lemma scanner_step_invariant (sw : State * World) (ev : ScannerEvent) :
  scanner_invariant (fst sw) -> scanner_invariant (fst (scanner_step env JSON_parse sw ev)).
Proof.
  destruct sw as [st w]. intros (Hload & Hone & Hnofile & Hnum). simpl in *.
  destruct ev as [[f|]|]; simpl.
  - unfold scanner_invariant. simpl. split_and!; auto; try discriminate.
  - unfold scanner_invariant. auto.
  - destruct (file st) as [f|] eqn:Hf.
    + rewrite (handleScan_scanned env JSON_parse st f w Hf). simpl.
      destruct (scan env JSON_parse f w) as [[r|e] w'] eqn:Hscan; simpl;
        unfold scanner_invariant; simpl; split_and!; auto; try discriminate.
      intros r0 [= <-].
      destruct (scan_normal_inv env JSON_parse f w w' r Hscan) as [result Hdec].
      destruct (decode_normal_inv JSON_parse result r Hdec) as (_ & _ & _ & _ & Hty).
      exact Hty.
    + unfold handleScan. rewrite Hf. unfold_M. simpl.
      unfold scanner_invariant. auto.
Qed.

(** X12. Whatever files the user picks and however often the scan button
    is pressed, between two events the scanner is never loading, never
    shows both a result and an error message, shows neither before a
    file is chosen, and only ever shows a result whose
    [health_percentage] is a number. *)
Theorem scanner_always_consistent (events : list ScannerEvent) (w : World) :
  let st := fst (scanner_run env JSON_parse events w) in
  loading st = false /\
  (scanResult st = None \/ error st = None) /\
  (file st = None -> scanResult st = None /\ error st = None) /\
  (forall r, scanResult st = Some r ->
             typeof (get_property r (Named "health_percentage")) = TyNumber).
Proof.
  unfold scanner_run.
  assert (Hinit : scanner_invariant (fst (scanner_initial, w))).
  { unfold scanner_invariant. simpl. split_and!; auto. discriminate. }
  revert Hinit. generalize (scanner_initial, w).
  induction events as [|ev events IH]; intros sw Hinv; simpl; [exact Hinv|].
  apply IH, scanner_step_invariant, Hinv.
Qed.

End RenderFacts.

(** ** The subscription, as turns are appended *)

Lemma insert_doc_before_newest (x d : Doc) (l : list Doc) :
  doc_timestamp x < doc_timestamp d ->
  insert_doc x (l ++ [d]) = (insert_doc x l ++ [d])%list.
Proof.
  intros Hlt. induction l as [|y l IH]; simpl.
  - unfold doc_leb. replace (doc_timestamp x <? doc_timestamp d) with true by lia. reflexivity.
  - destruct (doc_leb x y); [reflexivity|]. rewrite IH. reflexivity.
Qed.

(** A document newer than all others comes last in the ascending order. *)
Lemma orderBy_newest_last (log : list Doc) (d : Doc) :
  newer_than_all (doc_timestamp d) log ->
  orderBy_timestamp_asc (log ++ [d]) = (orderBy_timestamp_asc log ++ [d])%list.
Proof.
  induction log as [|x log IH]; intros Hnew; simpl; [reflexivity|].
  rewrite IH by (intros y Hy; apply Hnew; right; exact Hy).
  apply insert_doc_before_newest, Hnew. left.
Qed.

Section SubscriptionMore.

Import GardeningBot.

Variable env : Env.
Variable props : Props.

Lemma addDoc_effect (role : string) (text : JsValue) (w : World) :
  let w' := snd (addDoc env props role text w) in
  requests w' = requests w /\
  store_writes w' = S (store_writes w) /\
  timeouts w' = timeouts w /\
  ((store_accepts env (store_writes w) = true /\
    fst (addDoc env props role text w) = Normal (new_doc_id env (store_writes w)) /\
    chat_log env props w' =
      (chat_log env props w ++ [stored_doc env (store_writes w) role text])%list) \/
   (store_accepts env (store_writes w) = false /\
    fst (addDoc env props role text w) = Throw FirestoreError /\
    chat_log env props w' = chat_log env props w)).
Proof.
  unfold addDoc. destruct (store_accepts env (store_writes w)); simpl.
  - split_and!; try reflexivity. left. split_and!; try reflexivity.
    unfold chat_log at 1. simpl. apply lookup_total_insert_eq.
  - split_and!; try reflexivity. right. auto.
Qed.

(** X13. The effect subscribes only when both [db] and [userId] are
    there.  Every view it then delivers holds only messages with text,
    oldest first, at most 50 of them, each a document of the collection
    and none more often than the collection holds it. *)
Theorem subscribe_view (w : World) :
  (subscribe env props w = None <-> db props = false \/ no_userId props = true) /\
  (forall view,
     subscribe env props w = Some view ->
     Forall (fun msg => truthy (doc_text msg) = true) view /\
     StronglySorted older_or_same view /\
     (List.length view <= 50)%nat /\
     view ⊆+ chat_log env props w).
Proof.
  unfold subscribe. split.
  - destruct (db props), (no_userId props); simpl; split; intros H;
      try discriminate; try reflexivity; auto; destruct H; discriminate.
  - intros view Hview.
    destruct (negb (db props) || no_userId props); [discriminate|].
    injection Hview as <-. exact (snapshot_messages_facts env props w).
Qed.

(** X14. While the collection holds at most 50 documents, the delivered
    view is a rearrangement of exactly its documents with text: every
    turn with text is delivered, once, and nothing else is. *)
Theorem snapshot_complete_up_to_fifty (w : World) :
  (List.length (chat_log env props w) <= 50)%nat ->
  Permutation (snapshot_messages env props w) (with_text (chat_log env props w)).
Proof.
  intros Hlen. unfold snapshot_messages, chat_query, limit, with_text.
  rewrite firstn_all2 by (rewrite orderBy_length; exact Hlen).
  rewrite orderBy_Permutation. reflexivity.
Qed.

(** X15. Once the collection holds 50 documents, a new turn that the
    store stamps later than all of them changes nothing for the
    subscriber: the view delivered after the write is the view delivered
    before it. *)
Theorem new_turn_hidden_past_fifty (role : string) (text : JsValue) (w : World) :
  store_accepts env (store_writes w) = true ->
  newer_than_all (server_time env (store_writes w)) (chat_log env props w) ->
  (50 <= List.length (chat_log env props w))%nat ->
  snapshot_messages env props (snd (addDoc env props role text w)) = snapshot_messages env props w.
Proof.
  intros Hok Hnew Hlen.
  destruct (addDoc_effect role text w) as (_ & _ & _ & [(_ & _ & Hlog) | (Hno & _)]); [|congruence].
  unfold snapshot_messages, chat_query, limit. rewrite Hlog.
  rewrite orderBy_newest_last by exact Hnew.
  rewrite take_app_le by (rewrite orderBy_length; exact Hlen). reflexivity.
Qed.

(** X16. Below 50 documents, a new turn stamped later than all others
    is delivered last when it has text, after the unchanged earlier
    view, and is left out when its text is empty. *)
Theorem new_turn_delivered_last (role : string) (text : JsValue) (w : World) :
  store_accepts env (store_writes w) = true ->
  newer_than_all (server_time env (store_writes w)) (chat_log env props w) ->
  (List.length (chat_log env props w) < 50)%nat ->
  snapshot_messages env props (snd (addDoc env props role text w)) =
    (snapshot_messages env props w ++
     (if truthy text then [stored_doc env (store_writes w) role text] else []))%list.
Proof.
  intros Hok Hnew Hlen.
  destruct (addDoc_effect role text w) as (_ & _ & _ & [(_ & _ & Hlog) | (Hno & _)]); [|congruence].
  unfold snapshot_messages, chat_query, limit, with_text. rewrite Hlog.
  rewrite orderBy_newest_last by exact Hnew.
  rewrite !firstn_all2 by (rewrite ?length_app, orderBy_length; simpl; lia).
  rewrite filter_app. f_equal.
  rewrite filter_cons, filter_nil. simpl.
  destruct (truthy text); simpl; reflexivity.
Qed.

End SubscriptionMore.

(** ** [handleSend], for every network and every store *)

(** One step of [chars]: a first character of at least one byte, and
    the characters of what follows it. *)
Lemma chars_step (c1 : ascii) (rest1 : string) :
  exists ch rest,
    chars (String c1 rest1) = ch :: chars rest /\
    string_is_empty ch = false /\
    (String.length rest <= String.length rest1)%nat.
Proof.
  assert (Halone : exists ch rest,
            String c1 EmptyString :: chars rest1 = ch :: chars rest /\
            string_is_empty ch = false /\
            (String.length rest <= String.length rest1)%nat).
  { exists (String c1 EmptyString), rest1. auto. }
  destruct rest1 as [|c2 rest2]; [exact Halone|].
  change (chars (String c1 (String c2 rest2))) with
    (if byte_in 194 223 c1 && continuation c2
     then String c1 (String c2 EmptyString) :: chars rest2
     else match rest2 with
          | EmptyString => String c1 EmptyString :: chars (String c2 rest2)
          | String c3 rest3 =>
              if byte_in 224 239 c1 && continuation c2 && continuation c3
              then String c1 (String c2 (String c3 EmptyString)) :: chars rest3
              else match rest3 with
                   | EmptyString => String c1 EmptyString :: chars (String c2 rest2)
                   | String c4 rest4 =>
                       if byte_in 240 244 c1 && continuation c2 && continuation c3 && continuation c4
                       then String c1 (String c2 (String c3 (String c4 EmptyString))) :: chars rest4
                       else String c1 EmptyString :: chars (String c2 rest2)
                   end
          end).
  destruct (byte_in 194 223 c1 && continuation c2).
  { eexists _, _. split_and!; [reflexivity | reflexivity | simpl; lia]. }
  destruct rest2 as [|c3 rest3]; [exact Halone|].
  destruct (byte_in 224 239 c1 && continuation c2 && continuation c3).
  { eexists _, _. split_and!; [reflexivity | reflexivity | simpl; lia]. }
  destruct rest3 as [|c4 rest4]; [exact Halone|].
  destruct (byte_in 240 244 c1 && continuation c2 && continuation c3 && continuation c4).
  { eexists _, _. split_and!; [reflexivity | reflexivity | simpl; lia]. }
  exact Halone.
Qed.

(** Every character [chars] cuts off holds at least one byte. *)
Lemma chars_nonempty_upto (n : nat) (s : string) :
  (String.length s <= n)%nat ->
  Forall (fun ch => string_is_empty ch = false) (chars s).
Proof.
  revert s. induction n as [|n IH]; intros s Hlen.
  - destruct s; [constructor | simpl in Hlen; lia].
  - destruct s as [|c1 rest1]; [constructor|].
    destruct (chars_step c1 rest1) as (ch & rest & -> & Hch & Hrest).
    constructor; [exact Hch|]. apply IH. simpl in Hlen. lia.
Qed.

Lemma chars_nonempty (s : string) :
  Forall (fun ch => string_is_empty ch = false) (chars s).
Proof. exact (chars_nonempty_upto (String.length s) s (Nat.le_refl _)). Qed.

Lemma drop_leading_space_blank (l : list string) :
  forallb is_whitespace l = true -> drop_leading_space l = [].
Proof.
  induction l as [|ch l IH]; simpl; [reflexivity|].
  intros H. apply andb_true_iff in H as [Hch Hl]. rewrite Hch. exact (IH Hl).
Qed.

Lemma drop_leading_space_not_blank (l : list string) :
  forallb is_whitespace l = false ->
  exists ch rest, drop_leading_space l = ch :: rest /\ is_whitespace ch = false /\ ch ∈ l.
Proof.
  induction l as [|ch l IH]; simpl; [discriminate|].
  destruct (is_whitespace ch) eqn:Hch; simpl.
  - intros H. destruct (IH H) as (ch' & rest & Hd & Hws & Hin).
    exists ch', rest. split_and!; auto. right. exact Hin.
  - intros _. exists ch, l. split_and!; auto. left.
Qed.

Lemma drop_trailing_space_head (ch : string) (rest : list string) :
  is_whitespace ch = false ->
  exists rest', drop_trailing_space (ch :: rest) = ch :: rest'.
Proof.
  intros Hch. simpl. rewrite Hch. destruct (drop_trailing_space rest); eauto.
Qed.

(** The trimmed input is empty exactly when the input is blank. *)
Lemma trim_empty_blank (s : string) : string_is_empty (trim s) = blank s.
Proof.
  unfold trim, blank. destruct (forallb is_whitespace (chars s)) eqn:Hb.
  - rewrite (drop_leading_space_blank _ Hb). reflexivity.
  - destruct (drop_leading_space_not_blank _ Hb) as (ch & rest & -> & Hws & Hin).
    destruct (drop_trailing_space_head ch rest Hws) as [rest' ->].
    pose proof (chars_nonempty s) as Hne. rewrite Forall_forall in Hne.
    specialize (Hne ch Hin). destruct ch as [|c ch]; [discriminate|].
    destruct rest'; reflexivity.
Qed.

Section SendMore.

Import GardeningBot.

Variable env : Env.
Variable props : Props.

(** What [callGeminiApi] does to the world, however the call and the
    writes end: at most five requests, and nothing or one model turn
    with text added to the log. *)
Lemma callGeminiApi_effect (msgs : list Doc) (userMessage : string) (w : World) :
  let w' := snd (callGeminiApi env props msgs userMessage w) in
  exists n new,
    (1 <= n <= 5)%nat /\
    requests w' = (requests w ++ repeat (mkRequest apiUrl (chat_payload msgs userMessage)) n)%list /\
    chat_log env props w' = (chat_log env props w ++ new)%list /\
    (new = [] \/
     exists d, new = [d] /\ doc_role d = "model" /\ truthy (doc_text d) = true).
Proof.
  unfold callGeminiApi, retryWithBackoff. unfold_M.
  destruct (retry_loop env (apiCall env (chat_payload msgs userMessage)) default_maxRetries 0 w 0)
    as [[c w1] n] eqn:Hrun.
  destruct (retry_loop_apiCall_trace env _ default_maxRetries w w1 c n Hrun)
    as (Hle & Hge & Hreq & _ & _ & Hsame).
  pose proof (same_store_chat_log env props w w1 Hsame) as Hlog.
  unfold default_maxRetries in Hle, Hge.
  assert (Hn : (1 <= n <= 5)%nat) by lia.
  assert (Hapology : forall w2,
            requests w2 = requests w1 -> chat_log env props w2 = chat_log env props w1 ->
            let w' := snd (addDoc env props "model" (JsString apology) w2) in
            exists new,
              requests w' = (requests w ++ repeat (mkRequest apiUrl (chat_payload msgs userMessage)) n)%list /\
              chat_log env props w' = (chat_log env props w ++ new)%list /\
              (new = [] \/ exists d, new = [d] /\ doc_role d = "model" /\ truthy (doc_text d) = true)).
  { intros w2 Hreq2 Hlog2.
    destruct (addDoc_effect env props "model" (JsString apology) w2)
      as (Hr & _ & _ & [(_ & _ & Hl) | (_ & _ & Hl)]); simpl.
    - eexists. rewrite Hr, Hreq2, Hreq, Hl, Hlog2, Hlog. split_and!; try reflexivity.
      right. eexists. split_and!; reflexivity.
    - exists []. rewrite Hr, Hreq2, Hreq, Hl, Hlog2, Hlog, app_nil_r. auto. }
  exists n. simpl.
  destruct c as [result|e]; simpl.
  - destruct (first_candidate_text (value_or_undefined result)) as [text|e]; simpl.
    + destruct (truthy text) eqn:Htruthy; simpl.
      * destruct (addDoc_effect env props "model" text w1)
          as (Hr & _ & _ & [(_ & Hfst & Hl) | (_ & Hfst & Hl)]);
          destruct (addDoc env props "model" text w1) as [c2 w2]; simpl in *; subst c2; simpl.
        -- eexists. rewrite Hr, Hreq, Hl, Hlog. split_and!; try reflexivity; try lia.
           right. eexists. split_and!; try reflexivity. exact Htruthy.
        -- destruct (Hapology w2 Hr Hl) as (new & H1 & H2 & H3).
           destruct (addDoc env props "model" (JsString apology) w2) as [[?|?] w3]; simpl in *;
             exists new; auto.
      * exists []. rewrite app_nil_r. auto.
    + destruct (Hapology w1 eq_refl eq_refl) as (new & H1 & H2 & H3).
      destruct (addDoc env props "model" (JsString apology) w1) as [[?|?] w3]; simpl in *;
        exists new; auto.
  - destruct (Hapology w1 eq_refl eq_refl) as (new & H1 & H2 & H3).
    destruct (addDoc env props "model" (JsString apology) w1) as [[?|?] w3]; simpl in *;
      exists new; auto.
Qed.

Lemma callGeminiApi_store_writes (msgs : list Doc) (userMessage : string) (w : World) :
  (store_writes w <= store_writes (snd (callGeminiApi env props msgs userMessage w)))%nat.
Proof.
  unfold callGeminiApi. unfold_M.
  destruct (retryWithBackoff env (apiCall env (chat_payload msgs userMessage)) default_maxRetries w)
    as [c w1] eqn:Hretry.
  destruct (retryWithBackoff_apiCall_same_store _ _ _ _ _ _ Hretry) as [_ Hsw].
  assert (Hadd : forall role text w0,
            store_writes (snd (addDoc env props role text w0)) = S (store_writes w0)).
  { intros role text w0. destruct (addDoc_effect env props role text w0) as (_ & H & _). exact H. }
  destruct c as [result|e]; simpl.
  - destruct (first_candidate_text (value_or_undefined result)) as [text|e]; simpl.
    + destruct (truthy text); simpl; [|lia].
      pose proof (Hadd "model" text w1) as H1.
      destruct (addDoc env props "model" text w1) as [[id|e] w2]; simpl in *; [lia|].
      pose proof (Hadd "model" (JsString apology) w2) as H2.
      destruct (addDoc env props "model" (JsString apology) w2) as [[id|e'] w3]; simpl in *; lia.
    + pose proof (Hadd "model" (JsString apology) w1) as H2.
      destruct (addDoc env props "model" (JsString apology) w1) as [[id|e'] w3]; simpl in *; lia.
  - pose proof (Hadd "model" (JsString apology) w1) as H2.
    destruct (addDoc env props "model" (JsString apology) w1) as [[id|e'] w3]; simpl in *; lia.
Qed.

(** X17. Whatever the network and the store do, and whether it returns
    or throws, [handleSend] only appends to the log: nothing, or the
    user turn with the trimmed input, or that turn followed by one model
    turn; every turn it writes has text, so none of them is filtered out
    of a view; and it sends at most five requests. *)
Theorem handleSend_appends_only (st : State) (w : World) :
  let w' := snd (handleSend env props st w) in
  exists new,
    chat_log env props w' = (chat_log env props w ++ new)%list /\
    (new = [] \/
     exists user_turn, doc_role user_turn = "user" /\
                       doc_text user_turn = JsString (trim (input st)) /\
                       (new = [user_turn] \/
                        exists model_turn, doc_role model_turn = "model" /\
                                           new = [user_turn; model_turn])) /\
    Forall (fun d => truthy (doc_text d) = true) new /\
    (List.length (requests w) <= List.length (requests w') <= List.length (requests w) + 5)%nat.
Proof.
  unfold handleSend. fold (send_rejected props st).
  destruct (send_rejected props st) eqn:Hguard; unfold_M; simpl.
  - exists []. rewrite app_nil_r. split_and!; auto; lia.
  - assert (Hinput : string_is_empty (trim (input st)) = false).
    { unfold send_rejected in Hguard. repeat (apply orb_false_iff in Hguard as [Hguard ?]). exact Hguard. }
    destruct (addDoc_effect env props "user" (JsString (trim (input st))) w)
      as (Hr & _ & _ & [(_ & Hfst & Hl) | (_ & Hfst & Hl)]);
      destruct (addDoc env props "user" (JsString (trim (input st))) w) as [c1 w1];
      simpl in *; subst c1; simpl.
    + destruct (callGeminiApi_effect (messages st) (trim (input st)) w1)
        as (n & new & Hn & Hreq & Hlog & Hnew).
      destruct (callGeminiApi env props (messages st) (trim (input st)) w1) as [[[]|e] w2];
        simpl in *.
      all: exists (stored_doc env (store_writes w) "user" (JsString (trim (input st))) :: new).
      all: rewrite Hlog, Hl, Hreq, Hr, <- app_assoc, length_app, repeat_length.
      all: split; [reflexivity|].
      all: split;
        [right; exists (stored_doc env (store_writes w) "user" (JsString (trim (input st))));
         split; [reflexivity|]; split; [reflexivity|];
         destruct Hnew as [-> | (d & -> & Hrole & _)]; [left; reflexivity | right; eauto] |].
      all: split; [|lia].
      all: constructor; [simpl; rewrite Hinput; reflexivity |];
           destruct Hnew as [-> | (d & -> & _ & Htext)]; repeat constructor; exact Htext.
    + exists []. rewrite app_nil_r, Hl, Hr. split_and!; auto; lia.
Qed.

(** When the store acknowledges every write, [callGeminiApi] returns. *)
Lemma callGeminiApi_returns (msgs : list Doc) (userMessage : string) (w : World) :
  (forall k, store_accepts env k = true) ->
  fst (callGeminiApi env props msgs userMessage w) = Normal ().
Proof.
  intros Hstore. unfold callGeminiApi. unfold_M.
  assert (Hadd : forall role text w0, exists id w1,
            addDoc env props role text w0 = (Normal id, w1)).
  { intros role text w0. unfold addDoc. rewrite Hstore. eauto. }
  destruct (retryWithBackoff _ _ _ w) as [[result|e] w1]; simpl.
  - destruct (first_candidate_text (value_or_undefined result)) as [text|e]; simpl.
    + destruct (truthy text); [|reflexivity].
      destruct (Hadd "model" text w1) as (id & w2 & ->). reflexivity.
    + destruct (Hadd "model" (JsString apology) w1) as (id & w2 & ->). reflexivity.
  - destruct (Hadd "model" (JsString apology) w1) as (id & w2 & ->). reflexivity.
Qed.

(** X18. With a store that acknowledges every write, [handleSend] never
    throws, whatever the network does: a rejected send leaves the state
    as it is, an accepted one ends with the input cleared and [loading]
    false; [messages] is never changed by the handler. *)
Theorem handleSend_never_throws (st : State) (w : World) :
  (forall k, store_accepts env k = true) ->
  fst (handleSend env props st w) =
    Normal (if send_rejected props st then st
            else mkState (messages st) EmptyString false).
Proof.
  intros Hstore. unfold handleSend. fold (send_rejected props st).
  destruct (send_rejected props st); [reflexivity|]. unfold_M. simpl.
  unfold addDoc at 1. rewrite Hstore. simpl.
  match goal with |- context [callGeminiApi env props ?m ?u ?w1] =>
    pose proof (callGeminiApi_returns m u w1 Hstore) as Hret;
    destruct (callGeminiApi env props m u w1) as [c w2] end.
  simpl in Hret. subst c. reflexivity.
Qed.

(** X19. An input of white space only is never sent: nothing is written
    and no request is made.  An input with a visible character, on an
    idle component with [db] and [userId], always reaches the store. *)
Theorem handleSend_blank_input (st : State) (w : World) :
  (blank (input st) = true -> handleSend env props st w = (Normal st, w)) /\
  (blank (input st) = false -> loading st = false -> db props = true -> no_userId props = false ->
   store_writes w < store_writes (snd (handleSend env props st w)))%nat.
Proof.
  split.
  - intros Hblank. unfold handleSend. rewrite trim_empty_blank, Hblank. reflexivity.
  - intros Hblank Hload Hdb Huser. unfold handleSend.
    rewrite trim_empty_blank, Hblank, Hload, Hdb, Huser. simpl. unfold_M.
    destruct (addDoc_effect env props "user" (JsString (trim (input st))) w) as (_ & Hsw & _).
    destruct (addDoc env props "user" (JsString (trim (input st))) w) as [[id|e] w1];
      simpl in *; [|lia].
    match goal with |- context [callGeminiApi env props ?m ?u w1] =>
      pose proof (callGeminiApi_store_writes m u w1) as Hmono;
      destruct (callGeminiApi env props m u w1) as [[[]|e] w2] end; simpl in *; lia.
Qed.

End SendMore.

Section SendAnswered.

Import GardeningBot.

Variable env : Env.
Variable props : Props.

(** X20. A send whose first [k < 5] requests fail and whose next request
    is answered with a text ends, when the store acknowledges its two
    writes, with exactly two new turns, the trimmed input as user turn
    and the text as model turn, after [k + 1] requests and no more. *)
Theorem handleSend_first_answer
    (st : State) (w : World) (k : nat) (status : Z) (envelope text : JsValue) :
  let userMessage := trim (input st) in
  let request := mkRequest apiUrl (chat_payload (messages st) userMessage) in
  send_rejected props st = false ->
  (k < 5)%nat ->
  (forall j, (j < k)%nat ->
     reply_fails (network env (List.length (requests w) + j) request) = true) ->
  network env (List.length (requests w) + k) request = HttpResponse status (Some envelope) ->
  response_ok status = true ->
  first_candidate_text envelope = Normal text ->
  truthy text = true ->
  store_accepts env (store_writes w) = true ->
  store_accepts env (S (store_writes w)) = true ->
  exists w',
    handleSend env props st w = (Normal (mkState (messages st) EmptyString false), w') /\
    chat_log env props w' =
      (chat_log env props w ++
       [stored_doc env (store_writes w) "user" (JsString userMessage);
        stored_doc env (S (store_writes w)) "model" text])%list /\
    requests w' = (requests w ++ repeat request (S k))%list.
Proof.
  intros userMessage request Hguard Hk Hfail Hreply Hok Htext Htruthy Hok1 Hok2.
  destruct (addDoc_accepted env props "user" (JsString userMessage) w Hok1)
    as (w1 & Hadd1 & Hlog1 & Hsw1 & Hreq1).
  set (payload := chat_payload (messages st) userMessage).
  assert (Hrun : retry_loop env (apiCall env payload) default_maxRetries 0 w1 0 =
                 (Normal (Some envelope), world_after_attempt env (apiCall env payload) w1 k, S k)).
  { apply retry_loop_first_success.
    - unfold default_maxRetries. lia.
    - intros j Hj. rewrite attempt_apiCall, apiCall_outcome_threw, Hreq1. exact (Hfail j Hj).
    - rewrite attempt_apiCall, Hreq1.
      change (mkRequest apiUrl payload) with request.
      rewrite Hreply. simpl. rewrite Hok. reflexivity. }
  set (w2 := world_after_attempt env (apiCall env payload) w1 k) in *.
  destruct (world_after_attempt_apiCall env payload w1 k) as [Hsame _].
  destruct (world_after_attempt_apiCall_trace env payload w1 k) as (Hreq2 & _).
  fold w2 in Hsame, Hreq2.
  pose proof (same_store_chat_log env props _ _ Hsame) as Hlog2.
  destruct Hsame as [_ Hsw2].
  assert (Hok2' : store_accepts env (store_writes w2) = true) by (rewrite Hsw2, Hsw1; exact Hok2).
  destruct (addDoc_accepted env props "model" text w2 Hok2') as (w3 & Hadd3 & Hlog3 & _ & Hreq3).
  exists w3. split_and!.
  - unfold handleSend. fold (send_rejected props st). rewrite Hguard.
    unfold_M. fold userMessage. rewrite Hadd1. unfold callGeminiApi, retryWithBackoff. unfold_M.
    simpl. fold payload. rewrite Hrun. simpl. rewrite Htext, Htruthy, Hadd3. reflexivity.
  - rewrite Hlog3, Hlog2, Hlog1, Hsw2, Hsw1, <- app_assoc. reflexivity.
  - rewrite Hreq3, Hreq2, Hreq1. reflexivity.
Qed.

(** X21. The history sent with a message is the delivered view, entry
    for entry and in its order, followed by the new message: the filter
    of [callGeminiApi] drops nothing from a delivered view, at most 50
    entries precede the message, and every entry is sent with the role
    user or model, whatever role its document has. *)
Theorem chat_payload_of_view (w : World) (userMessage : string) :
  let msgs := snapshot_messages env props w in
  get_property (chat_payload msgs userMessage) (Named "contents") =
    JsArray (map history_entry msgs ++ [user_entry userMessage]) /\
  (List.length (map history_entry msgs) <= 50)%nat /\
  Forall role_is_user_or_model (map history_entry msgs ++ [user_entry userMessage]).
Proof.
  intros msgs.
  destruct (snapshot_messages_facts env props w) as (Htext & _ & Hlen & _). fold msgs in Htext, Hlen.
  assert (Hfilter : with_text msgs = msgs).
  { unfold with_text. clear Hlen. induction Htext as [|m l Hm Hl IH]; [reflexivity|].
    rewrite filter_cons, IH. destruct (decide (truthy (doc_text m) = true)); [reflexivity|contradiction]. }
  split_and!.
  - unfold chat_payload. rewrite Hfilter. reflexivity.
  - rewrite length_map. exact Hlen.
  - apply Forall_app. split.
    + apply Forall_forall. intros e He. apply list_elem_of_fmap in He as (m & -> & _).
      unfold role_is_user_or_model, history_entry. simpl.
      destruct (String.eqb (doc_role m) "user"); [left | right]; reflexivity.
    + repeat constructor.
Qed.

End SendAnswered.

(** ** The [App] component *)

Section AppFacts.

Import App.

(** X22. [authenticate] never throws and signs in at most twice: first
    with the custom token when there is one, anonymously otherwise, and,
    only when that call is rejected, once more anonymously; the user
    ends signed in exactly when one of these calls resolved. *)
Theorem authenticate_falls_back (aenv : AuthEnv) (initialAuthToken : option string) (aw : AuthWorld) :
  let first :=
    match initialAuthToken with
    | Some token => if string_is_empty token then signInAnonymously else signInWithCustomToken token
    | None => signInAnonymously
    end in
  let k := List.length (sign_ins aw) in
  exists aw',
    authenticate aenv initialAuthToken aw = (Normal (), aw') /\
    match sign_in_error aenv k first with
    | None => sign_ins aw' = (sign_ins aw ++ [first])%list /\ signed_in_by aw' = Some first
    | Some _ =>
        sign_ins aw' = (sign_ins aw ++ [first; signInAnonymously])%list /\
        signed_in_by aw' =
          match sign_in_error aenv (S k) signInAnonymously with
          | None => Some signInAnonymously
          | Some _ => signed_in_by aw
          end
    end.
Proof.
  intros first k. subst k. unfold authenticate. fold first. unfold sign_in.
  destruct (sign_in_error aenv (List.length (sign_ins aw)) first) as [e|] eqn:Hfirst; simpl.
  - rewrite length_app. simpl.
    replace (List.length (sign_ins aw) + 1)%nat with (S (List.length (sign_ins aw))) by lia.
    destruct (sign_in_error aenv (S (List.length (sign_ins aw))) signInAnonymously) as [e'|]; simpl;
      eexists; (split; [reflexivity|]); rewrite <- app_assoc; split; reflexivity.
  - eexists. split; [reflexivity|]. split; reflexivity.
Qed.

(** X23. However the auth listener fires and the views are switched, the
    app shows the chat only once authentication is ready, and then with
    a Firestore handle and a user id that is not [null]; without a
    Firebase configuration it stays on the loading card for ever. *)
Theorem app_never_shows_chat_unready (firebaseConfig : bool) (events : list AppEvent) :
  let st := app_run firebaseConfig events in
  (isAuthReady st = true -> firebaseConfig = true /\ db st = true /\ userId st <> None) /\
  (forall props, render st = BotScreen props ->
     GardeningBot.db props = true /\ GardeningBot.userId props <> None) /\
  (firebaseConfig = false -> render st = LoadingScreen).
Proof.
  assert (Hinv : forall st0,
            (db st0 = firebaseConfig /\
             (isAuthReady st0 = true -> firebaseConfig = true /\ userId st0 <> None)) ->
            let st := fold_left (app_step firebaseConfig) events st0 in
            db st = firebaseConfig /\
            (isAuthReady st = true -> firebaseConfig = true /\ userId st <> None)).
  { induction events as [|ev evs IH]; intros st0 Hst0; simpl; [exact Hst0|].
    apply IH. destruct Hst0 as [Hdb Hready].
    destruct ev as [user uuid | v]; simpl.
    - destruct firebaseConfig; [|split; assumption].
      split; [destruct user; exact Hdb|].
      intros _. split; [reflexivity|]. destruct user; discriminate.
    - split; assumption. }
  intros st. unfold st, app_run.
  destruct (Hinv (mount firebaseConfig initial)) as [Hdb Hready].
  { unfold mount, initial. destruct firebaseConfig; simpl; split; auto; discriminate. }
  set (final := fold_left (app_step firebaseConfig) events (mount firebaseConfig initial)) in *.
  split_and!.
  - intros H. destruct (Hready H) as [Hc Hu]. rewrite Hdb. auto.
  - unfold render, renderContent. intros p Hp.
    destruct (isAuthReady final) eqn:Hr; simpl in Hp; [|discriminate].
    destruct (String.eqb (view final) "scanner"); [discriminate|].
    injection Hp as <-. simpl. destruct (Hready eq_refl) as [Hc Hu]. rewrite Hdb. auto.
  - intros ->. unfold render.
    destruct (isAuthReady final) eqn:Hr; [|reflexivity].
    destruct (Hready eq_refl) as [Hc _]. discriminate.
Qed.

End AppFacts.

(** ** The further properties at concrete inputs *)

Section MoreWitnesses.

Import Examples.

Lemma retry_never_undefined_witness :
  fst (retryWithBackoff failing_env (apiCall failing_env ping) 5 empty_world) <> Normal None.
Proof.
  apply (retry_never_undefined failing_env (apiCall failing_env ping) 5 empty_world). lia.
Defined.

Lemma retry_outcome_inversion_witness :
  exists i, Z.of_nat i < 5 /\
    (forall j, (j < i)%nat ->
       threw (attempt recovering_env (apiCall recovering_env ping) empty_world j) = true) /\
    attempt recovering_env (apiCall recovering_env ping) empty_world i
      = Normal (envelope_with_text (JsString leaf_blight_text)) /\
    snd (retryWithBackoff recovering_env (apiCall recovering_env ping) 5 empty_world)
      = world_after_attempt recovering_env (apiCall recovering_env ping) empty_world i /\
    invocations recovering_env (apiCall recovering_env ping) 5 empty_world = S i.
Proof.
  apply (retry_outcome_inversion recovering_env (apiCall recovering_env ping) 5 empty_world
           (snd (retryWithBackoff recovering_env (apiCall recovering_env ping) 5 empty_world))
           (Normal (Some (envelope_with_text (JsString leaf_blight_text))))).
  vm_compute. reflexivity.
Defined.


Lemma retry_apiCall_total_backoff_witness :
  exists pauses,
    timeouts (snd (retryWithBackoff failing_env (apiCall failing_env ping) 5 empty_world))
      = (timeouts empty_world ++ pauses)%list /\
    List.length pauses = 4%nat /\
    (15000 <= total_delay pauses)%Q /\ (total_delay pauses <= 19000)%Q.
Proof.
  destruct (retry_apiCall_total_backoff failing_env ping 5 empty_world
              (snd (retryWithBackoff failing_env (apiCall failing_env ping) 5 empty_world))
              (ApiStatusError 504))
    as (pauses & Hto & _ & Hlen & _ & _ & H5).
  - intros j. split; [discriminate | reflexivity].
  - vm_compute. reflexivity.
  - exists pauses. destruct (H5 eq_refl) as [Hlo Hhi]. auto.
Defined.

Lemma fileToBase64_data_url_witness :
  fileToBase64 leaf_png empty_world = (Normal (JsString "iVBORw0KGgo="), empty_world).
Proof.
  apply (proj1 (fileToBase64_data_url leaf_png empty_world) "data:image/png;base64" "iVBORw0KGgo=");
    reflexivity.
Defined.

Lemma handleScan_requests_witness :
  exists n,
    (1 <= n <= 5)%nat /\
    requests (snd (PlantScanner.handleScan recovering_env JSON.parse (scanner_with untyped_photo) empty_world))
      = (requests empty_world ++ repeat (scan_request untyped_photo "data:;base64,AAECAw==") n)%list /\
    timeouts (snd (PlantScanner.handleScan recovering_env JSON.parse (scanner_with untyped_photo) empty_world))
      = (timeouts empty_world ++ backoff_pauses recovering_env (random_draws empty_world) (n - 1))%list /\
    same_store empty_world
      (snd (PlantScanner.handleScan recovering_env JSON.parse (scanner_with untyped_photo) empty_world)).
Proof.
  apply (handleScan_requests recovering_env JSON.parse (scanner_with untyped_photo) untyped_photo
           "data:;base64,AAECAw==" empty_world); reflexivity.
Defined.

Lemma handleScan_first_answer_is_final_witness :
  exists w',
    PlantScanner.handleScan recovering_env JSON.parse (scanner_with leaf_png) empty_world =
      (Normal (scanned leaf_png
                 (PlantScanner.decode JSON.parse (envelope_with_text (JsString leaf_blight_text)))), w') /\
    requests w' =
      (requests empty_world ++ repeat (scan_request leaf_png "data:image/png;base64,iVBORw0KGgo=") 3)%list.
Proof.
  apply (handleScan_first_answer_is_final recovering_env JSON.parse (scanner_with leaf_png) leaf_png
           "data:image/png;base64,iVBORw0KGgo=" empty_world 2 200
           (envelope_with_text (JsString leaf_blight_text))).
  - reflexivity.
  - reflexivity.
  - lia.
  - intros j Hj. destruct j as [|[|j]]; [reflexivity | reflexivity | lia].
  - reflexivity.
  - reflexivity.
Defined.

Lemma scan_result_health_is_number_witness :
  typeof (get_property leaf_blight_result (Named "health_percentage")) = TyNumber /\
  exists url i status envelope text,
    file_dataURL leaf_png = Some url /\
    (i < 5)%nat /\
    (forall j, (j < i)%nat ->
       reply_fails (network recovering_env (List.length (requests empty_world) + j)
                      (scan_request leaf_png url)) = true) /\
    network recovering_env (List.length (requests empty_world) + i) (scan_request leaf_png url)
      = HttpResponse status (Some envelope) /\
    response_ok status = true /\
    first_candidate_text envelope = Normal text /\
    truthy text = true /\
    JSON.parse text = Some leaf_blight_result /\
    requests (snd (PlantScanner.handleScan recovering_env JSON.parse (scanner_with leaf_png) empty_world))
      = (requests empty_world ++ repeat (scan_request leaf_png url) (S i))%list.
Proof.
  apply (scan_result_health_is_number recovering_env JSON.parse
           (scanner_with leaf_png)
           (PlantScanner.mkState (Some leaf_png) (Some leaf_blight_result) false None)
           leaf_png empty_world
           (snd (PlantScanner.handleScan recovering_env JSON.parse (scanner_with leaf_png) empty_world))
           leaf_blight_result).
  - reflexivity.
  - vm_compute. reflexivity.
  - reflexivity.
Defined.
Lemma render_after_decode_witness :
  exists b items,
    PlantScanner.isDiseased (Some leaf_blight_result) = Value b /\
    PlantScanner.remedy_items leaf_blight_result = Value items /\
    (3 <= List.length items <= 5)%nat.
Proof.
  apply (proj2 (proj2 (render_after_decode JSON.parse
                         (envelope_with_text (JsString leaf_blight_text)) leaf_blight_result
                         ltac:(vm_compute; reflexivity)))).
  reflexivity.
Defined.

Lemma getHealthColor_monotone_witness :
  PlantScanner.getHealthColor 80 = "text-green-600 bg-green-100 border-green-300" /\
  PlantScanner.getHealthColor (799 # 10) = "text-yellow-600 bg-yellow-100 border-yellow-300" /\
  PlantScanner.getHealthColor 60 = "text-yellow-600 bg-yellow-100 border-yellow-300" /\
  PlantScanner.getHealthColor (599 # 10) = "text-red-600 bg-red-100 border-red-300" /\
  (color_rank (PlantScanner.getHealthColor 50) <= color_rank (PlantScanner.getHealthColor 85))%nat.
Proof.
  split_and!.
  - apply (proj1 (getHealthColor_monotone 80 80)). discriminate.
  - apply (proj1 (proj2 (getHealthColor_monotone (799 # 10) 80))); [discriminate | reflexivity].
  - apply (proj1 (proj2 (getHealthColor_monotone 60 80))); [discriminate | reflexivity].
  - apply (proj1 (proj2 (proj2 (getHealthColor_monotone (599 # 10) 80)))). reflexivity.
  - apply (proj2 (proj2 (proj2 (getHealthColor_monotone 50 85)))). discriminate.
Defined.

Lemma snapshot_complete_up_to_fifty_witness :
  Permutation (GardeningBot.snapshot_messages quiet_env gardener (append_turns quiet_env 3 empty_world))
    (GardeningBot.with_text
       (GardeningBot.chat_log quiet_env gardener (append_turns quiet_env 3 empty_world))).
Proof.
  apply (snapshot_complete_up_to_fifty quiet_env gardener (append_turns quiet_env 3 empty_world)).
  vm_compute. lia.
Defined.

Lemma new_turn_hidden_past_fifty_witness :
  GardeningBot.snapshot_messages quiet_env gardener
    (snd (GardeningBot.addDoc quiet_env gardener "user" (JsString "one more")
            (append_turns quiet_env 50 empty_world)))
  = GardeningBot.snapshot_messages quiet_env gardener (append_turns quiet_env 50 empty_world).
Proof.
  apply (new_turn_hidden_past_fifty quiet_env gardener "user" (JsString "one more")
           (append_turns quiet_env 50 empty_world)).
  - reflexivity.
  - unfold newer_than_all. apply Forall_forall.
    refine (@bool_decide_unpack (Forall _ _) _ _). vm_compute. exact I.
  - vm_compute. lia.
Defined.

Lemma new_turn_delivered_last_witness :
  GardeningBot.snapshot_messages quiet_env gardener
    (snd (GardeningBot.addDoc quiet_env gardener "user" (JsString "one more")
            (append_turns quiet_env 3 empty_world)))
  = (GardeningBot.snapshot_messages quiet_env gardener (append_turns quiet_env 3 empty_world)
     ++ [stored_doc quiet_env 3 "user" (JsString "one more")])%list.
Proof.
  apply (new_turn_delivered_last quiet_env gardener "user" (JsString "one more")
           (append_turns quiet_env 3 empty_world)).
  - reflexivity.
  - unfold newer_than_all. apply Forall_forall.
    refine (@bool_decide_unpack (Forall _ _) _ _). vm_compute. exact I.
  - vm_compute. lia.
Defined.

(** [trim] at work: white space beyond the 7-bit one is removed at both
    ends, white space inside the text is kept, and a byte 160 that
    continues another character is no space. *)
Example trim_examples :
  trim spaces_only = EmptyString /\
  trim padded_hi = "hi" /\
  trim padded_question = "my fern is yellow" /\
  trim (utf8 [32; 97; 32; 98; 9]%nat) = "a b" /\
  trim (utf8 [195; 160; 32]%nat) = utf8 [195; 160]%nat /\
  trim (utf8 [226; 128; 160]%nat) = utf8 [226; 128; 160]%nat /\
  blank spaces_only = true /\
  blank padded_hi = false.
Proof. split_and!; reflexivity. Qed.

Lemma handleSend_never_throws_witness :
  fst (GardeningBot.handleSend quiet_env gardener (typing "hello") empty_world)
    = Normal (GardeningBot.mkState [] EmptyString false).
Proof.
  apply (handleSend_never_throws quiet_env gardener (typing "hello") empty_world).
  intros k. reflexivity.
Defined.

Lemma handleSend_blank_input_witness :
  GardeningBot.handleSend quiet_env gardener (typing spaces_only) empty_world
    = (Normal (typing spaces_only), empty_world) /\
  (store_writes empty_world
     < store_writes (snd (GardeningBot.handleSend quiet_env gardener (typing padded_hi) empty_world)))%nat.
Proof.
  split.
  - apply (proj1 (handleSend_blank_input quiet_env gardener (typing spaces_only) empty_world)). reflexivity.
  - apply (proj2 (handleSend_blank_input quiet_env gardener (typing padded_hi) empty_world)); reflexivity.
Defined.

Lemma handleSend_first_answer_witness :
  exists w',
    GardeningBot.handleSend recovering_advice_env gardener (typing padded_question) empty_world =
      (Normal (GardeningBot.mkState [] EmptyString false), w') /\
    GardeningBot.chat_log recovering_advice_env gardener w' =
      [stored_doc recovering_advice_env 0 "user" (JsString "my fern is yellow");
       stored_doc recovering_advice_env 1 "model" (JsString "Water it less.")] /\
    requests w' = repeat (mkRequest apiUrl (GardeningBot.chat_payload [] "my fern is yellow")) 3.
Proof.
  apply (handleSend_first_answer recovering_advice_env gardener (typing padded_question)
           empty_world 2 200 (envelope_with_text (JsString "Water it less."))
           (JsString "Water it less.")).
  - reflexivity.
  - lia.
  - intros j Hj. destruct j as [|[|j]]; [reflexivity | reflexivity | lia].
  - reflexivity.
  - reflexivity.
  - reflexivity.
  - reflexivity.
  - reflexivity.
  - reflexivity.
Defined.

End MoreWitnesses.
